(** * ts-framestream: the control-frame codec and the writer handshake

    A shallow embedding of the TypeScript sources of ts-framestream:

    - [Constants]: the enums and limits of src/constants.ts (repeated at the
      head of the Control module);
    - [Control]: class Control ([encode], [decode], [checkContentTypes]),
      which the listing has after the tests of src/Control/control.spec.ts;
    - [FrameEncoder]: class Encoder with [encode] and [decode]
      (unnamed/part_001, imported by the socket writer as
      '../encoder/Encoder');
    - [Encoder]: class Encoder with [recv], [sendControlFrame], [sendFrame]
      and [bufferToControlFrameType] (unnamed/part_000);
    - [Decoder]: class Decoder with [detectFrameType], [readControlFrame]
      and [readFrame] (unnamed/part_000);
    - [Writer]: class Writer of src/index.ts;
    - [SocketWriter]: class SocketWriter (unnamed/part_002).

    Buffers are lists of bytes held as [Z] (0..255), JavaScript strings are
    lists of UTF-16 code units held as [Z], JavaScript numbers that the code
    uses as sizes and offsets are [Z].  A thrown [Error] is a value of
    [result]; code that writes to the socket threads the socket: the chunks
    written so far and the events to come. *)

From Stdlib Require Import ZArith List Bool Lia String Ascii.
Import ListNotations.
Local Open Scope Z_scope.

(* ================================================================== *)
(** ** Errors and results *)

(** The errors the sources throw.  The program distinguishes them by their
    message only; each constructor quotes the message it stands for. *)
Inductive Error : Type :=
| FieldNotAllowed
    (* 'CONTENT_TYPE field may not appear in STOP or FINISH control frames' *)
| TooShort
    (* 'Control frame length is less than 4 bytes' *)
| LengthExceeded (bufferLength : Z)
    (* `Control frame length exceeds maximum allowed length: ${buffer.length}` *)
| InvalidType (controlFrameType : Z)
    (* `Invalid control frame type: ${controlFrameType}` *)
| InvalidField (fieldType : Z)
    (* `Invalid control field type: ${fieldType}` *)
| FieldTooLong (length : Z)
    (* `Control field length exceeds maximum allowed length: ${length}` *)
| ExpectedAccept (got : Z)
    (* `Expected ACCEPT control frame, got ${type}` *)
| ContentTypesNotSupported
    (* 'Content types not supported' *)
| TimeoutWaitingForData
    (* 'Timeout while waiting for data' (Encoder.recv) *)
| CommunicationTimedOut
    (* 'Communication timed out' (SocketWriter.recv) *)
| SocketClosed
    (* 'Socket closed before receiving data' *)
| SocketError
    (* the error object of the socket's 'error' event or write callback *)
| ERR_OUT_OF_RANGE
    (* RangeError of writeUInt32BE: value outside 0 .. 2^32-1 *)
| ERR_BUFFER_OUT_OF_BOUNDS.
    (* RangeError of readUInt32BE / writeUInt32BE: fewer than 4 bytes there *)

(** A computation returns, throws, or has no result: [NoResult] stands for
    a promise that is never settled and for the bound of a modelled [while]
    loop running out (which [decode_loop_result] excludes for buffers of
    bytes). *)
Inductive result (A : Type) : Type :=
| Ok (a : A)
| Throw (e : Error)
| NoResult.
Arguments Ok {A} a.
Arguments Throw {A} e.
Arguments NoResult {A}.

Definition bind {A B : Type} (m : result A) (k : A -> result B) : result B :=
  match m with
  | Ok a => k a
  | Throw e => Throw e
  | NoResult => NoResult
  end.

Notation "x <- m ;; k" := (bind m (fun x => k))
  (at level 61, m at next level, right associativity).

(* ================================================================== *)
(** ** The runtime: Buffer and string primitives of Node.js *)

Module Js.

(** A [Buffer] is a sequence of bytes. *)
Definition Buffer : Type := list Z.

(** A JavaScript string is a sequence of UTF-16 code units. *)
Definition jsstring : Type := list Z.

(** The string written as an ASCII literal. *)
Definition str (s : string) : jsstring :=
  map (fun a => Z.of_N (N_of_ascii a)) (list_ascii_of_string s).

Definition length (b : Buffer) : Z := Z.of_nat (List.length b).

(** [Buffer.alloc(n)]: n zero bytes. *)
Definition alloc (n : Z) : Buffer := repeat 0 (Z.to_nat n).

(** [Buffer.concat(list)]. *)
Definition concat (buffers : list Buffer) : Buffer := List.concat buffers.

(** [buf.subarray(start, end)]: negative indices count from the end, both
    are clamped to the buffer, and an end before the start gives the empty
    buffer. *)
Definition clamp_index (len i : Z) : Z :=
  if i <? 0 then Z.max 0 (len + i) else Z.min i len.

Definition subarray (buf : Buffer) (start end_ : Z) : Buffer :=
  let s := clamp_index (length buf) start in
  let e := clamp_index (length buf) end_ in
  firstn (Z.to_nat (e - s)) (skipn (Z.to_nat s) buf).

(** [buf.subarray(start)]. *)
Definition subarray_from (buf : Buffer) (start : Z) : Buffer :=
  subarray buf start (length buf).

(** [buf.readUInt32BE(offset)]: throws when bytes [offset] or [offset+3]
    are not in the buffer. *)
Definition readUInt32BE (buf : Buffer) (offset : Z) : result Z :=
  if (offset <? 0) || (length buf <? offset + 4) then Throw ERR_BUFFER_OUT_OF_BOUNDS
  else
    match skipn (Z.to_nat offset) buf with
    | first :: b1 :: b2 :: last :: _ =>
        Ok (first * 2 ^ 24 + b1 * 2 ^ 16 + b2 * 2 ^ 8 + last)
    | _ => Throw ERR_BUFFER_OUT_OF_BOUNDS
    end.

(** [buf.writeUInt32BE(value, offset)]: the value is checked against
    0 .. 2^32-1, then its four bytes are stored from the last one up,
    shifting the value right by 8 each time. *)
Definition writeUInt32BE (buf : Buffer) (value offset : Z) : result Buffer :=
  if (value <? 0) || (4294967295 <? value) then Throw ERR_OUT_OF_RANGE
  else if (offset <? 0) || (length buf <? offset + 4) then Throw ERR_BUFFER_OUT_OF_BOUNDS
  else
    let b3 := Z.land value 255 in
    let b2 := Z.land (Z.shiftr value 8) 255 in
    let b1 := Z.land (Z.shiftr value 16) 255 in
    let b0 := Z.land (Z.shiftr value 24) 255 in
    Ok (firstn (Z.to_nat offset) buf ++ [b0; b1; b2; b3]
        ++ skipn (Z.to_nat offset + 4) buf).

(** [a.equals(b)] on buffers, and [===] on strings. *)
Definition equals (a b : list Z) : bool :=
  if list_eq_dec Z.eq_dec a b then true else false.

(** *** UTF-8 *)

Definition is_high_surrogate (u : Z) : bool := (0xD800 <=? u) && (u <=? 0xDBFF).
Definition is_low_surrogate (u : Z) : bool := (0xDC00 <=? u) && (u <=? 0xDFFF).

(** The UTF-8 bytes of one code point. *)
Definition utf8_bytes (c : Z) : Buffer :=
  if c <? 0x80 then [c]
  else if c <? 0x800 then
    [Z.lor 0xC0 (Z.shiftr c 6); Z.lor 0x80 (Z.land c 0x3F)]
  else if c <? 0x10000 then
    [Z.lor 0xE0 (Z.shiftr c 12);
     Z.lor 0x80 (Z.land (Z.shiftr c 6) 0x3F);
     Z.lor 0x80 (Z.land c 0x3F)]
  else
    [Z.lor 0xF0 (Z.shiftr c 18);
     Z.lor 0x80 (Z.land (Z.shiftr c 12) 0x3F);
     Z.lor 0x80 (Z.land (Z.shiftr c 6) 0x3F);
     Z.lor 0x80 (Z.land c 0x3F)].

(** The code point of a surrogate pair. *)
Definition surrogate_pair (hi lo : Z) : Z :=
  0x10000 + Z.shiftl (hi - 0xD800) 10 + (lo - 0xDC00).

(** [Buffer.from(string)]: the UTF-8 encoding of the string; a surrogate
    that is not part of a pair is written as U+FFFD (EF BF BD). *)
Fixpoint from (s : jsstring) : Buffer :=
  match s with
  | [] => []
  | u :: rest =>
      if is_high_surrogate u then
        match rest with
        | l :: rest' =>
            if is_low_surrogate l
            then utf8_bytes (surrogate_pair u l) ++ from rest'
            else [0xEF; 0xBF; 0xBD] ++ from rest
        | [] => [0xEF; 0xBF; 0xBD]
        end
      else if is_low_surrogate u then [0xEF; 0xBF; 0xBD] ++ from rest
      else utf8_bytes u ++ from rest
  end.

(** [Buffer.byteLength(string)]: the number of bytes of its UTF-8
    encoding. *)
Definition byteLength (s : jsstring) : Z := length (from s).

(** The state of the UTF-8 decoder (WHATWG Encoding, "UTF-8 decoder"). *)
Record Utf8State : Type := {
  code_point : Z;
  bytes_seen : Z;
  bytes_needed : Z;
  lower_boundary : Z;
  upper_boundary : Z
}.

Definition utf8_init : Utf8State :=
  {| code_point := 0; bytes_seen := 0; bytes_needed := 0;
     lower_boundary := 0x80; upper_boundary := 0xBF |}.

(** A byte read when no bytes are needed. *)
Definition utf8_lead (b : Z) : list Z * Utf8State :=
  if b <=? 0x7F then ([b], utf8_init)
  else if (0xC2 <=? b) && (b <=? 0xDF) then
    ([], {| code_point := Z.land b 0x1F; bytes_seen := 0; bytes_needed := 1;
            lower_boundary := 0x80; upper_boundary := 0xBF |})
  else if (0xE0 <=? b) && (b <=? 0xEF) then
    ([], {| code_point := Z.land b 0xF; bytes_seen := 0; bytes_needed := 2;
            lower_boundary := if b =? 0xE0 then 0xA0 else 0x80;
            upper_boundary := if b =? 0xED then 0x9F else 0xBF |})
  else if (0xF0 <=? b) && (b <=? 0xF4) then
    ([], {| code_point := Z.land b 0x7; bytes_seen := 0; bytes_needed := 3;
            lower_boundary := if b =? 0xF0 then 0x90 else 0x80;
            upper_boundary := if b =? 0xF4 then 0x8F else 0xBF |})
  else ([0xFFFD], utf8_init).

(** One byte of input: the code points emitted and the next state.  A byte
    outside the boundaries ends the sequence with U+FFFD and is read again
    as a lead byte. *)
Definition utf8_step (st : Utf8State) (b : Z) : list Z * Utf8State :=
  if bytes_needed st =? 0 then utf8_lead b
  else if (b <? lower_boundary st) || (upper_boundary st <? b) then
    let '(out, st') := utf8_lead b in (0xFFFD :: out, st')
  else
    let c := Z.lor (Z.shiftl (code_point st) 6) (Z.land b 0x3F) in
    if bytes_seen st + 1 =? bytes_needed st then ([c], utf8_init)
    else ([], {| code_point := c; bytes_seen := bytes_seen st + 1;
                 bytes_needed := bytes_needed st;
                 lower_boundary := 0x80; upper_boundary := 0xBF |}).

(** The code points of a byte sequence; an unfinished sequence at the end
    of the input gives U+FFFD. *)
Fixpoint utf8_decode (st : Utf8State) (bytes : Buffer) : list Z :=
  match bytes with
  | [] => if bytes_needed st =? 0 then [] else [0xFFFD]
  | b :: rest =>
      let '(out, st') := utf8_step st b in out ++ utf8_decode st' rest
  end.

(** The UTF-16 code units of one code point. *)
Definition utf16_units (c : Z) : jsstring :=
  if c <? 0x10000 then [c]
  else [0xD800 + Z.shiftr (c - 0x10000) 10; 0xDC00 + Z.land (c - 0x10000) 0x3FF].

(** [buf.toString()]: the buffer decoded as UTF-8. *)
Definition toString (buf : Buffer) : jsstring :=
  flat_map utf16_units (utf8_decode utf8_init buf).

(** A well-formed string: every code unit is 16 bits wide and every
    surrogate is half of a pair. *)
Fixpoint well_formed (s : jsstring) : bool :=
  match s with
  | [] => true
  | u :: rest =>
      (0 <=? u) && (u <=? 0xFFFF) &&
      (if is_high_surrogate u then
         match rest with
         | l :: rest' => is_low_surrogate l && well_formed rest'
         | [] => false
         end
       else negb (is_low_surrogate u) && well_formed rest)
  end.

End Js.

(* ================================================================== *)
(** ** src/constants.ts *)

Module Constants.

Inductive ControlFrameType : Type :=
| ACCEPT   (* = 0x01 *)
| START    (* = 0x02 *)
| STOP     (* = 0x03 *)
| READY    (* = 0x04 *)
| FINISH.  (* = 0x05 *)

(** The number an enum member is at run time. *)
Definition value (t : ControlFrameType) : Z :=
  match t with
  | ACCEPT => 0x01
  | START => 0x02
  | STOP => 0x03
  | READY => 0x04
  | FINISH => 0x05
  end.

(** [type === ControlFrameType.STOP || type === ControlFrameType.FINISH]. *)
Definition is_STOP_or_FINISH (t : ControlFrameType) : bool :=
  (value t =? value STOP) || (value t =? value FINISH).

(** A value of [Object.values(ControlFrameType)]: the compiled numeric enum
    maps names to numbers and numbers back to names, so its values are the
    five names and the five numbers. *)
Inductive EnumValue : Type :=
| Name (s : string)
| Number (n : Z).

Definition ControlFrameType_values : list EnumValue :=
  [Name "ACCEPT"; Name "START"; Name "STOP"; Name "READY"; Name "FINISH";
   Number 0x01; Number 0x02; Number 0x03; Number 0x04; Number 0x05].

(** [Object.values(ControlFrameType).includes(n)] for a number [n]. *)
Definition values_includes (n : Z) : bool :=
  existsb (fun v => match v with Number m => m =? n | Name _ => false end)
          ControlFrameType_values.

(** enum ControlFieldType *)
Definition CONTENT_TYPE : Z := 0x01.

Inductive FrameType : Type :=
| CONTROL  (* = 0 *)
| DATA.    (* = 1 *)

Definition ESCAPE_SEQUENCE : Js.Buffer := [0; 0; 0; 0].

Definition CONTROL_FRAME_LENGTH_MAX : Z := 512.

Definition CONTROL_FIELD_CONTENT_TYPE_LENGTH_MAX : Z := 512.

End Constants.

(** [if (contentTypes)] on an optional array: an array, even an empty one,
    is truthy; [undefined] is not. *)
Definition truthy {A : Type} (o : option A) : bool :=
  match o with
  | Some _ => true
  | None => false
  end.

(** The loop [for (const contentType of contentTypes)] that Control.encode
    and Encoder.sendControlFrame both run: three buffers are pushed for each
    content type. *)
Fixpoint push_content_types (contentTypes : list Js.jsstring)
    (buffers : list Js.Buffer) : result (list Js.Buffer) :=
  match contentTypes with
  | [] => Ok buffers
  | contentType :: rest =>
      controlFieldBuffer <- Js.writeUInt32BE (Js.alloc 4) Constants.CONTENT_TYPE 0 ;;
      lengthBuffer <- Js.writeUInt32BE (Js.alloc 4) (Js.byteLength contentType) 0 ;;
      let contentTypeBuffer := Js.from contentType in
      push_content_types rest
        (buffers ++ [controlFieldBuffer; lengthBuffer; contentTypeBuffer])
  end.

(* ================================================================== *)
(** ** class Control *)

Module Control.
Import Constants.

Record DecodedControlFrame : Type := {
  type : Z;
  contentTypes : option (list Js.jsstring)
}.

(** class Control: [constructor(private contentTypes?: string[])]. *)
Record Control : Type := {
  this_contentTypes : option (list Js.jsstring)
}.

(** [static encode(type, contentTypes?)]. *)
Definition encode (type : ControlFrameType)
    (contentTypes : option (list Js.jsstring)) : result Js.Buffer :=
  if truthy contentTypes && is_STOP_or_FINISH type then Throw FieldNotAllowed
  else
    typeBuffer <- Js.writeUInt32BE (Js.alloc 4) (value type) 0 ;;
    buffers <- match contentTypes with
               | Some cts => push_content_types cts [typeBuffer]
               | None => Ok [typeBuffer]
               end ;;
    Ok (Js.concat buffers).

(** The loop [while (offset < contentTypesBuffer.length)] of decode.  The
    first argument bounds the number of iterations. *)
Fixpoint decode_loop (bound : nat) (contentTypesBuffer : Js.Buffer)
    (offset : Z) (contentTypes : list Js.jsstring)
    : result (list Js.jsstring) :=
  match bound with
  | O => NoResult
  | S bound' =>
      if offset <? Js.length contentTypesBuffer then
        fieldType <-
          Js.readUInt32BE (Js.subarray contentTypesBuffer offset (offset + 4)) 0 ;;
        if negb (fieldType =? CONTENT_TYPE) then Throw (InvalidField fieldType)
        else
          let offset := offset + 4 in
          length <-
            Js.readUInt32BE (Js.subarray contentTypesBuffer offset (offset + 4)) 0 ;;
          if CONTROL_FIELD_CONTENT_TYPE_LENGTH_MAX <? length
          then Throw (FieldTooLong length)
          else
            let offset := offset + 4 in
            let contentType :=
              Js.toString (Js.subarray contentTypesBuffer offset (offset + length)) in
            decode_loop bound' contentTypesBuffer (offset + length)
                        (contentTypes ++ [contentType])
      else Ok contentTypes
  end.

(** [static decode(buffer)]. *)
Definition decode (buffer : Js.Buffer) : result DecodedControlFrame :=
  if Js.length buffer <? 4 then Throw TooShort
  else
    let cfData := Js.subarray_from buffer 4 in
    if CONTROL_FRAME_LENGTH_MAX <? Js.length cfData
    then Throw (LengthExceeded (Js.length buffer))
    else
      controlFrameType <- Js.readUInt32BE (Js.subarray buffer 0 4) 0 ;;
      if negb (values_includes controlFrameType)
      then Throw (InvalidType controlFrameType)
      else
        let contentTypesBuffer := Js.subarray_from buffer 4 in
        contentTypes <-
          (if 0 <? Js.length contentTypesBuffer
           then decode_loop (S (List.length contentTypesBuffer))
                            contentTypesBuffer 0 []
           else Ok []) ;;
        Ok {| type := controlFrameType; contentTypes := Some contentTypes |}.

(** [contentType.includes(ct)]. *)
Definition includes (contentType : list Js.jsstring) (ct : Js.jsstring) : bool :=
  existsb (fun x => Js.equals x ct) contentType.

(** [checkContentTypes(contentType)]. *)
Definition checkContentTypes (this : Control)
    (contentType : list Js.jsstring) : bool :=
  match this_contentTypes this with
  | None => false
  | Some cts => existsb (fun ct => includes contentType ct) cts
  end.

(** The instance methods [encode(type)] and [decode(buffer)]. *)
Definition encode_ (this : Control) (type : ControlFrameType) : result Js.Buffer :=
  encode type (this_contentTypes this).

Definition decode_ (this : Control) (buffer : Js.Buffer)
    : result DecodedControlFrame :=
  decode buffer.

End Control.

(* ================================================================== *)
(** ** class Encoder of the data framing *)

Module FrameEncoder.

Record DecodedFrame : Type := {
  size : Z;
  payload : Js.Buffer
}.

Definition encode (buf : Js.Buffer) : result Js.Buffer :=
  let len := Js.length buf in
  lenBuf <- Js.writeUInt32BE (Js.alloc 4) len 0 ;;
  Ok (Js.concat [lenBuf; buf]).

Definition decode (buf : Js.Buffer) : result DecodedFrame :=
  size <- Js.readUInt32BE buf 0 ;;
  let payload := Js.subarray_from buf 4 in
  Ok {| size := size; payload := payload |}.

End FrameEncoder.

(* ================================================================== *)
(** ** The socket, its events and promises *)

(** What can happen while a read is pending: the socket emits 'data',
    'error' or 'close', or the timer set by [setTimeout] fires. *)
Inductive Event : Type :=
| DataEvent (data : Js.Buffer)
| ErrorEvent
| CloseEvent
| TimerEvent.

Inductive Promise (A : Type) : Type :=
| Pending
| Resolved (a : A)
| Rejected (e : Error).
Arguments Pending {A}.
Arguments Resolved {A} a.
Arguments Rejected {A} e.

(** [resolve] and [reject] settle a pending promise and leave a settled one
    as it is. *)
Definition resolve {A : Type} (a : A) (p : Promise A) : Promise A :=
  match p with
  | Pending => Resolved a
  | _ => p
  end.

Definition reject {A : Type} (e : Error) (p : Promise A) : Promise A :=
  match p with
  | Pending => Rejected e
  | _ => p
  end.

(** [await p]. *)
Definition await {A : Type} (p : Promise A) : result A :=
  match p with
  | Pending => NoResult
  | Resolved a => Ok a
  | Rejected e => Throw e
  end.

(** The callbacks one call of [recv] has registered and the promise it
    returned.  [timer = Some d]: a [setTimeout] callback is pending, [d] is
    the delay the call passed ([None] when it passed none; Node then waits
    1 ms). *)
Record RecvState : Type := {
  on_data : bool;
  on_error : bool;
  on_close : bool;
  timer : option (option Z);
  promise : Promise Js.Buffer
}.

(** No callback of the read is registered any more. *)
Definition no_callbacks (st : RecvState) : bool :=
  negb (on_data st) && negb (on_error st) && negb (on_close st)
  && match timer st with None => true | Some _ => false end.

(** The socket as the writer sees it: the chunks written so far, whether a
    write reports an error to its callback, and the events that follow once a
    read is pending. *)
Record Socket : Type := {
  written : list Js.Buffer;
  write_fails : bool;
  events : list Event
}.

(** Asynchronous code on a socket. *)
Definition Async (A : Type) : Type := Socket -> result A * Socket.

Definition ret {A : Type} (a : A) : Async A := fun s => (Ok a, s).

Definition throw {A : Type} (e : Error) : Async A := fun s => (Throw e, s).

Definition lift {A : Type} (r : result A) : Async A := fun s => (r, s).

Definition bindA {A B : Type} (m : Async A) (k : A -> Async B) : Async B :=
  fun s =>
    match m s with
    | (Ok a, s') => k a s'
    | (Throw e, s') => (Throw e, s')
    | (NoResult, s') => (NoResult, s')
    end.

Notation "x <~ m ;; k" := (bindA m (fun x => k))
  (at level 61, m at next level, right associativity).

(** [socket.write(chunk)]. *)
Definition socket_write (chunk : Js.Buffer) : Async unit :=
  fun s => (Ok tt, {| written := written s ++ [chunk];
                      write_fails := write_fails s;
                      events := events s |}).

(** The events are dispatched one by one until the promise of the read is
    settled; the rest stay with the socket. *)
Fixpoint dispatch_until_settled (step : RecvState -> Event -> RecvState)
    (st : RecvState) (evs : list Event) : RecvState * list Event :=
  match promise st with
  | Pending =>
      match evs with
      | [] => (st, [])
      | ev :: rest => dispatch_until_settled step (step st ev) rest
      end
  | _ => (st, evs)
  end.

Definition await_recv (step : RecvState -> Event -> RecvState)
    (start : RecvState) : Async Js.Buffer :=
  fun s =>
    let '(st, rest) := dispatch_until_settled step start (events s) in
    (await (promise st),
     {| written := written s; write_fails := write_fails s; events := rest |}).

(* ================================================================== *)
(** ** class Encoder of the socket protocol *)

Module Encoder.
Import Constants.

(** *** recv(socket, timeout?) *)

(** [cleanup]: the three [socket.off] calls. *)
Definition cleanup (st : RecvState) : RecvState :=
  {| on_data := false; on_error := false; on_close := false;
     timer := timer st; promise := promise st |}.

Definition onData (data : Js.Buffer) (st : RecvState) : RecvState :=
  let st := cleanup st in
  {| on_data := on_data st; on_error := on_error st; on_close := on_close st;
     timer := timer st; promise := resolve data (promise st) |}.

Definition fail (e : Error) (st : RecvState) : RecvState :=
  let st := cleanup st in
  {| on_data := on_data st; on_error := on_error st; on_close := on_close st;
     timer := timer st; promise := reject e (promise st) |}.

Definition onError : RecvState -> RecvState := fail SocketError.
Definition onClose : RecvState -> RecvState := fail SocketClosed.
Definition onTimeout : RecvState -> RecvState := fail TimeoutWaitingForData.

(** [if (timeout)] on an optional number. *)
Definition truthy_number (timeout : option Z) : bool :=
  match timeout with
  | Some n => negb (n =? 0)
  | None => false
  end.

(** The state when the executor of the promise has run: three [once]
    listeners, and a timer when [timeout] is truthy. *)
Definition recv_start (timeout : option Z) : RecvState :=
  {| on_data := true; on_error := true; on_close := true;
     timer := if truthy_number timeout then Some timeout else None;
     promise := Pending |}.

(** An event reaches the callback registered for it.  A [once] listener
    is removed before it is called; a timer that fired is gone. *)
Definition recv_step (st : RecvState) (ev : Event) : RecvState :=
  match ev with
  | DataEvent data =>
      if on_data st then
        onData data {| on_data := false; on_error := on_error st;
                       on_close := on_close st; timer := timer st;
                       promise := promise st |}
      else st
  | ErrorEvent =>
      if on_error st then
        onError {| on_data := on_data st; on_error := false;
                   on_close := on_close st; timer := timer st;
                   promise := promise st |}
      else st
  | CloseEvent =>
      if on_close st then
        onClose {| on_data := on_data st; on_error := on_error st;
                   on_close := false; timer := timer st;
                   promise := promise st |}
      else st
  | TimerEvent =>
      match timer st with
      | Some _ =>
          onTimeout {| on_data := on_data st; on_error := on_error st;
                       on_close := on_close st; timer := None;
                       promise := promise st |}
      | None => st
      end
  end.

Definition recv (timeout : option Z) : Async Js.Buffer :=
  await_recv recv_step (recv_start timeout).

(** *** sendControlFrame(socket, type, contentTypes?) *)
Definition sendControlFrame (type : ControlFrameType)
    (contentTypes : option (list Js.jsstring)) : Async unit :=
  if truthy contentTypes && is_STOP_or_FINISH type then throw FieldNotAllowed
  else
    typeBuffer <~ lift (Js.writeUInt32BE (Js.alloc 4) (value type) 0) ;;
    buffers <~ lift (match contentTypes with
                     | Some cts => push_content_types cts [typeBuffer]
                     | None => Ok [typeBuffer]
                     end) ;;
    _ <~ socket_write ESCAPE_SEQUENCE ;;
    let finalBuffer := Js.concat buffers in
    lengthBuffer <~ lift (Js.writeUInt32BE (Js.alloc 4) (Js.length finalBuffer) 0) ;;
    _ <~ socket_write lengthBuffer ;;
    socket_write finalBuffer.

(** *** sendFrame(socket, frame) *)
Definition sendFrame (frame : Js.Buffer) : Async unit :=
  lengthBuffer <~ lift (Js.writeUInt32BE (Js.alloc 4) (Js.length frame) 0) ;;
  _ <~ socket_write lengthBuffer ;;
  socket_write frame.

(** *** static bufferToControlFrameType(buffer) *)
Definition bufferToControlFrameType (buffer : Js.Buffer) : result Z :=
  Js.readUInt32BE buffer 0.

End Encoder.

(* ================================================================== *)
(** ** class Decoder *)

Module Decoder.
Import Constants.

(** [detectFrameType(buffer)]: the promise it returns is resolved at once;
    [buffer.slice(0, 4)] is the same view as [subarray(0, 4)]. *)
Definition detectFrameType (buffer : Js.Buffer) : Promise FrameType :=
  if Js.equals (Js.subarray buffer 0 4) ESCAPE_SEQUENCE
  then Resolved CONTROL
  else Resolved DATA.

(** *** readControlFrame(socket) and readFrame(socket) *)

(** Both register a 'data' and an 'error' listener with [socket.on]. *)
Definition read_start : RecvState :=
  {| on_data := true; on_error := true; on_close := false;
     timer := None; promise := Pending |}.

(** A listener registered with [on] stays registered when it is called. *)
Definition read_step (st : RecvState) (ev : Event) : RecvState :=
  match ev with
  | DataEvent data =>
      if on_data st then
        {| on_data := on_data st; on_error := on_error st; on_close := on_close st;
           timer := timer st; promise := resolve data (promise st) |}
      else st
  | ErrorEvent =>
      if on_error st then
        {| on_data := on_data st; on_error := on_error st; on_close := on_close st;
           timer := timer st; promise := reject SocketError (promise st) |}
      else st
  | CloseEvent | TimerEvent => st
  end.

Definition readControlFrame : Async Js.Buffer :=
  await_recv read_step read_start.

Definition readFrame : Async Js.Buffer :=
  await_recv read_step read_start.

End Decoder.

(* ================================================================== *)
(** ** src/index.ts: class Writer *)

Module Writer.
Import Constants.

Record Writer : Type := {
  bidirectional : bool;
  contentTypes : option (list Js.jsstring)
}.

Definition init (this : Writer) : Async unit :=
  _ <~ (if bidirectional this then
          (* Send READY control frame *)
          _ <~ Encoder.sendControlFrame READY (contentTypes this) ;;
          (* Wait for ACCEPT control frame *)
          resp <~ Encoder.recv (Some 5000) ;;
          respType <~ lift (Encoder.bufferToControlFrameType resp) ;;
          if negb (respType =? value ACCEPT)
          then throw (ExpectedAccept respType)
          else ret tt
        else ret tt) ;;
  (* Send START control frame *)
  Encoder.sendControlFrame START (contentTypes this).

End Writer.

(* ================================================================== *)
(** ** class SocketWriter *)

Module SocketWriter.
Import Constants.

Record SocketWriter : Type := {
  timeout : option Z;
  bidirectional : bool;
  contentTypes : option (list Js.jsstring);
  control : Control.Control
}.

(** [writeFrame(frame)]: the promise is rejected when the write callback
    gets an error. *)
Definition writeFrame (this : SocketWriter) (frame : Js.Buffer) : Async unit :=
  chunk <~ lift (FrameEncoder.encode frame) ;;
  _ <~ socket_write chunk ;;
  fun s => if write_fails s then (Throw SocketError, s) else (Ok tt, s).

(** *** recv(timeout?) *)

(** [setTimeout] is called with the callback only, then one [once('data')]
    listener is registered. *)
Definition recv_start (timeout : option Z) : RecvState :=
  {| on_data := true; on_error := false; on_close := false;
     timer := match timeout with Some _ => Some None | None => None end;
     promise := Pending |}.

Definition recv_step (st : RecvState) (ev : Event) : RecvState :=
  match ev with
  | DataEvent data =>
      if on_data st then
        {| on_data := false; on_error := on_error st; on_close := on_close st;
           timer := timer st; promise := resolve data (promise st) |}
      else st
  | TimerEvent =>
      match timer st with
      | Some _ =>
          {| on_data := on_data st; on_error := on_error st;
             on_close := on_close st; timer := None;
             promise := reject CommunicationTimedOut (promise st) |}
      | None => st
      end
  | ErrorEvent | CloseEvent => st
  end.

Definition recv (this : SocketWriter) (timeout : option Z) : Async Js.Buffer :=
  await_recv recv_step (recv_start timeout).

(** *** handshake() *)
Definition handshake (this : SocketWriter) : Async unit :=
  (* Send READY control frame with content types from control internal state *)
  ready <~ lift (Control.encode_ (control this) READY) ;;
  _ <~ writeFrame this ready ;;
  (* Wait for ACCEPT control frame *)
  acceptFrame <~ recv this (Some 5000) ;;
  decoded <~ lift (Control.decode_ (control this) acceptFrame) ;;
  let type := Control.type decoded in
  let contentTypes := Control.contentTypes decoded in
  if negb (type =? value ACCEPT) then throw (ExpectedAccept type)
  else if match contentTypes with
          | Some cts => negb (Control.checkContentTypes (control this) cts)
          | None => false
          end
  then throw ContentTypesNotSupported
  else ret tt.

End SocketWriter.

(* ================================================================== *)
(** * Properties *)

(** ** Vocabulary of the statements *)

Import Constants.

(** The four bytes [writeUInt32BE] stores for a value, most significant
    first. *)
Definition be32 (v : Z) : Js.Buffer :=
  [Z.land (Z.shiftr v 24) 255; Z.land (Z.shiftr v 16) 255;
   Z.land (Z.shiftr v 8) 255; Z.land v 255].

(** One content-type field on the wire, and the fields of an array. *)
Definition field (s : Js.jsstring) : Js.Buffer :=
  be32 CONTENT_TYPE ++ be32 (Js.byteLength s) ++ Js.from s.

Definition fields (contentTypes : list Js.jsstring) : Js.Buffer :=
  flat_map field contentTypes.

(** The number of bytes the fields of an array take: 8 bytes of header and
    the UTF-8 bytes of each string. *)
Definition payload_size (contentTypes : list Js.jsstring) : Z :=
  fold_right (fun s n => 8 + Js.byteLength s + n) 0 contentTypes.

(** A control frame as sendControlFrame puts it on the wire: the escape
    sequence, the length of the payload, the payload. *)
Definition control_frame (payload : Js.Buffer) : Js.Buffer :=
  ESCAPE_SEQUENCE ++ be32 (Js.length payload) ++ payload.

(** A Unicode scalar value: a code point that is not a surrogate. *)
Definition scalar (c : Z) : Prop :=
  0 <= c < 0xD800 \/ 0xE000 <= c < 0x110000.

Definition is_byte (b : Z) : Prop := 0 <= b <= 255.

(** Sample data. *)
Definition dns_tap : list Js.jsstring := [Js.str "application/dns-tap"].

Definition sample_types : list Js.jsstring :=
  [Js.str "application/dns-tap"; []; [0xE9; 0x20AC]; [0xD83D; 0xDE00]].

(** A string of 512 letters a. *)
Definition a512 : Js.jsstring := repeat 97 512.

(** The payloads of READY and ACCEPT carrying "application/dns-tap", and of
    ACCEPT carrying "text/plain". *)
Definition ready_dns_tap : Js.Buffer :=
  [0; 0; 0; 4;  0; 0; 0; 1;  0; 0; 0; 19] ++ Js.from (Js.str "application/dns-tap").

Definition accept_dns_tap : Js.Buffer :=
  [0; 0; 0; 1;  0; 0; 0; 1;  0; 0; 0; 19] ++ Js.from (Js.str "application/dns-tap").

Definition accept_text_plain : Js.Buffer :=
  [0; 0; 0; 1;  0; 0; 0; 1;  0; 0; 0; 10] ++ Js.from (Js.str "text/plain").

(** A frame of START whose only field declares 5 bytes and has 2. *)
Definition truncated_frame : Js.Buffer :=
  [0; 0; 0; 2;  0; 0; 0; 1;  0; 0; 0; 5;  97; 98].

(** A socket nothing was written to, with the events to come. *)
Definition idle_socket (evs : list Event) : Socket :=
  {| written := []; write_fails := false; events := evs |}.

(** A SocketWriter built by its constructor from the content types alone:
    [control = new Control(contentTypes)]. *)
Definition socket_writer (configured : option (list Js.jsstring))
    : SocketWriter.SocketWriter :=
  {| SocketWriter.timeout := None;
     SocketWriter.bidirectional := true;
     SocketWriter.contentTypes := configured;
     SocketWriter.control := {| Control.this_contentTypes := configured |} |}.

(** The data of the 'data' event in the examples of reads. *)
Definition received : Js.Buffer := [0; 0; 0; 1].

(** The read of Encoder.recv(socket, 5000) after a 'data' event, and the
    read of SocketWriter.recv(5000) after its timer fired and after a 'data'
    event. *)
Definition Encoder_read_after_data : RecvState :=
  Encoder.recv_step (Encoder.recv_start (Some 5000)) (DataEvent received).

Definition SocketWriter_read_after_timer : RecvState :=
  SocketWriter.recv_step (SocketWriter.recv_start (Some 5000)) TimerEvent.

Definition SocketWriter_read_after_data : RecvState :=
  SocketWriter.recv_step (SocketWriter.recv_start (Some 5000)) (DataEvent received).

(** *** Vocabulary of the further properties *)

(** What each error of the loop of decode says about the field it stopped
    at. *)
Definition loop_error (e : Error) : Prop :=
  match e with
  | InvalidField n => n <> CONTENT_TYPE
  | FieldTooLong n => CONTROL_FIELD_CONTENT_TYPE_LENGTH_MAX < n
  | ERR_BUFFER_OUT_OF_BOUNDS => True
  | _ => False
  end.

(** What each error of decode says about the buffer. *)
Definition decode_error (buffer : Js.Buffer) (e : Error) : Prop :=
  match e with
  | TooShort => Js.length buffer < 4
  | LengthExceeded n =>
      n = Js.length buffer /\ 4 + CONTROL_FRAME_LENGTH_MAX < Js.length buffer
  | InvalidType n =>
      4 <= Js.length buffer <= 4 + CONTROL_FRAME_LENGTH_MAX
      /\ Js.readUInt32BE buffer 0 = Ok n /\ ~ 1 <= n <= 5
  | InvalidField n =>
      4 <= Js.length buffer <= 4 + CONTROL_FRAME_LENGTH_MAX /\ n <> CONTENT_TYPE
  | FieldTooLong n =>
      4 <= Js.length buffer <= 4 + CONTROL_FRAME_LENGTH_MAX
      /\ CONTROL_FIELD_CONTENT_TYPE_LENGTH_MAX < n
  | ERR_BUFFER_OUT_OF_BOUNDS =>
      4 <= Js.length buffer <= 4 + CONTROL_FRAME_LENGTH_MAX
  | _ => False
  end.


(** An event no listener of the reads of Decoder waits for. *)
Definition close_or_timer (ev : Event) : Prop := ev = CloseEvent \/ ev = TimerEvent.

(** The socket with other events to come. *)
Definition with_events (s : Socket) (evs : list Event) : Socket :=
  {| written := written s; write_fails := write_fails s; events := evs |}.

(** The first event that reaches a callback of Encoder.recv, and what it
    settles the read with. *)
Definition Encoder_recv_outcome (timeout : option Z) (ev : Event) : Promise Js.Buffer :=
  match ev with
  | DataEvent data => Resolved data
  | ErrorEvent => Rejected SocketError
  | CloseEvent => Rejected SocketClosed
  | TimerEvent =>
      if Encoder.truthy_number timeout then Rejected TimeoutWaitingForData else Pending
  end.

(** The array [for ... of] runs over: none when no content types are set. *)
Definition content_types_of (cts : option (list Js.jsstring)) : list Js.jsstring :=
  match cts with
  | Some l => l
  | None => []
  end.

(** The three chunks of a control frame of the given type and content
    types. *)
Definition control_chunks (ty : ControlFrameType) (cts : option (list Js.jsstring))
    : list Js.Buffer :=
  [ESCAPE_SEQUENCE;
   be32 (4 + payload_size (content_types_of cts));
   be32 (value ty) ++ fields (content_types_of cts)].

(** The last steps of handshake, on the result of decode. *)
Definition handshake_verdict (control : Control.Control)
    (decoded : result Control.DecodedControlFrame) : result unit :=
  match decoded with
  | Ok d =>
      if negb (Control.type d =? value ACCEPT) then Throw (ExpectedAccept (Control.type d))
      else if match Control.contentTypes d with
              | Some cts => negb (Control.checkContentTypes control cts)
              | None => false
              end
      then Throw ContentTypesNotSupported
      else Ok tt
  | Throw e => Throw e
  | NoResult => NoResult
  end.

(* ================================================================== *)
(** ** Bit operations as arithmetic *)

Lemma land_ones_mod (a n : Z) : 0 <= n -> Z.land a (2 ^ n - 1) = a mod 2 ^ n.
Proof.
  intros Hn. rewrite <- Z.land_ones by exact Hn.
  f_equal. rewrite Z.ones_equiv. lia.
Qed.

Lemma land_shiftl_low (a n x : Z) :
  0 <= n -> 0 <= x < 2 ^ n -> Z.land (Z.shiftl a n) x = 0.
Proof.
  intros Hn Hx. apply Z.bits_inj'. intros i Hi.
  rewrite Z.land_spec, Z.bits_0.
  destruct (Z.lt_ge_cases i n) as [Hlt | Hge].
  - rewrite Z.shiftl_spec_low by exact Hlt. reflexivity.
  - destruct (Z.eq_dec x 0) as [-> | Hx0].
    + rewrite Z.bits_0. apply andb_false_r.
    + rewrite (Z.bits_above_log2 x i), andb_false_r; try lia.
      apply Z.lt_le_trans with n; [ apply Z.log2_lt_pow2; lia | exact Hge ].
Qed.

Lemma lor_high_low (a n x : Z) :
  0 <= n -> 0 <= x < 2 ^ n -> Z.lor (a * 2 ^ n) x = a * 2 ^ n + x.
Proof.
  intros Hn Hx.
  rewrite <- Z.shiftl_mul_pow2 by exact Hn.
  pose proof (land_shiftl_low a n x Hn Hx) as H0.
  rewrite <- Z.lxor_lor by exact H0.
  symmetry. apply Z.add_nocarry_lxor. exact H0.
Qed.

Lemma shiftr_6 a : Z.shiftr a 6 = a / 64.
Proof. apply Z.shiftr_div_pow2. lia. Qed.
Lemma shiftr_8 a : Z.shiftr a 8 = a / 256.
Proof. apply Z.shiftr_div_pow2. lia. Qed.
Lemma shiftr_10 a : Z.shiftr a 10 = a / 1024.
Proof. apply Z.shiftr_div_pow2. lia. Qed.
Lemma shiftr_12 a : Z.shiftr a 12 = a / 4096.
Proof. apply Z.shiftr_div_pow2. lia. Qed.
Lemma shiftr_16 a : Z.shiftr a 16 = a / 65536.
Proof. apply Z.shiftr_div_pow2. lia. Qed.
Lemma shiftr_18 a : Z.shiftr a 18 = a / 262144.
Proof. apply Z.shiftr_div_pow2. lia. Qed.
Lemma shiftr_24 a : Z.shiftr a 24 = a / 16777216.
Proof. apply Z.shiftr_div_pow2. lia. Qed.
Lemma shiftl_10 a : Z.shiftl a 10 = a * 1024.
Proof. apply Z.shiftl_mul_pow2. lia. Qed.

Lemma land_7 a : Z.land a 7 = a mod 8.
Proof. apply (land_ones_mod a 3). lia. Qed.
Lemma land_15 a : Z.land a 15 = a mod 16.
Proof. apply (land_ones_mod a 4). lia. Qed.
Lemma land_31 a : Z.land a 31 = a mod 32.
Proof. apply (land_ones_mod a 5). lia. Qed.
Lemma land_63 a : Z.land a 63 = a mod 64.
Proof. apply (land_ones_mod a 6). lia. Qed.
Lemma land_255 a : Z.land a 255 = a mod 256.
Proof. apply (land_ones_mod a 8). lia. Qed.
Lemma land_1023 a : Z.land a 1023 = a mod 1024.
Proof. apply (land_ones_mod a 10). lia. Qed.

Lemma lor_128 x : 0 <= x < 64 -> Z.lor 128 x = 128 + x.
Proof. intros H. apply (lor_high_low 2 6 x); lia. Qed.
Lemma lor_192 x : 0 <= x < 32 -> Z.lor 192 x = 192 + x.
Proof. intros H. apply (lor_high_low 6 5 x); lia. Qed.
Lemma lor_224 x : 0 <= x < 16 -> Z.lor 224 x = 224 + x.
Proof. intros H. apply (lor_high_low 14 4 x); lia. Qed.
Lemma lor_240 x : 0 <= x < 8 -> Z.lor 240 x = 240 + x.
Proof. intros H. apply (lor_high_low 30 3 x); lia. Qed.
Lemma lor_shiftl_6 a x : 0 <= x < 64 -> Z.lor (Z.shiftl a 6) x = a * 64 + x.
Proof.
  intros H. rewrite Z.shiftl_mul_pow2 by lia. apply (lor_high_low a 6 x); lia.
Qed.

(** Linear arithmetic with division and remainder by constants. *)
Ltac dlia := Z.div_mod_to_equations; lia.

(** Prove a test true or false by arithmetic. *)
Ltac test_lia :=
  rewrite ?andb_true_iff, ?orb_true_iff, ?andb_false_iff, ?orb_false_iff,
          ?negb_true_iff, ?negb_false_iff,
          ?Z.leb_le, ?Z.ltb_lt, ?Z.eqb_eq, ?Z.leb_gt, ?Z.ltb_ge, ?Z.eqb_neq;
  dlia.

(** Take the branch of a conditional whose test arithmetic decides. *)
Ltac decide_test :=
  match goal with
  | |- context [if ?t then _ else _] =>
      first [ replace t with true by (symmetry; test_lia)
            | replace t with false by (symmetry; test_lia) ]
  end.

Ltac split_eqb :=
  match goal with
  | |- context [Z.eqb ?a ?b] => destruct (Z.eqb_spec a b)
  end.

Ltac bits_to_arith :=
  rewrite ?shiftr_6, ?shiftr_12, ?shiftr_18, ?shiftr_10, ?shiftl_10,
          ?land_63, ?land_31, ?land_15, ?land_7, ?land_1023.

(** Run the UTF-8 decoder over the bytes at the head of its input. *)
Ltac utf8_eval :=
  cbn [app Js.utf8_decode]; unfold Js.utf8_step, Js.utf8_lead;
  repeat (cbn [Js.bytes_needed Js.bytes_seen Js.code_point Js.lower_boundary
               Js.upper_boundary Js.utf8_init];
          first [decide_test | split_eqb]).

(* ================================================================== *)
(** ** UTF-8: decoding the encoding of a well-formed string *)

Lemma utf8_bytes_1 c : 0 <= c < 0x80 -> Js.utf8_bytes c = [c].
Proof. intros H. unfold Js.utf8_bytes. repeat decide_test. reflexivity. Qed.

Lemma utf8_bytes_2 c :
  0x80 <= c < 0x800 -> Js.utf8_bytes c = [192 + c / 64; 128 + c mod 64].
Proof.
  intros H. unfold Js.utf8_bytes. repeat decide_test. bits_to_arith.
  rewrite lor_192, lor_128 by dlia. reflexivity.
Qed.

Lemma utf8_bytes_3 c :
  0x800 <= c < 0x10000 ->
  Js.utf8_bytes c = [224 + c / 4096; 128 + (c / 64) mod 64; 128 + c mod 64].
Proof.
  intros H. unfold Js.utf8_bytes. repeat decide_test. bits_to_arith.
  rewrite lor_224, !lor_128 by dlia. reflexivity.
Qed.

Lemma utf8_bytes_4 c :
  0x10000 <= c < 0x110000 ->
  Js.utf8_bytes c =
  [240 + c / 262144; 128 + (c / 4096) mod 64; 128 + (c / 64) mod 64; 128 + c mod 64].
Proof.
  intros H. unfold Js.utf8_bytes. repeat decide_test. bits_to_arith.
  rewrite lor_240, !lor_128 by dlia. reflexivity.
Qed.

Lemma utf8_decode_bytes c rest :
  scalar c ->
  Js.utf8_decode Js.utf8_init (Js.utf8_bytes c ++ rest)
  = c :: Js.utf8_decode Js.utf8_init rest.
Proof.
  intros Hc. unfold scalar in Hc.
  destruct (Z.lt_ge_cases c 0x80) as [H1 | H1];
    [ | destruct (Z.lt_ge_cases c 0x800) as [H2 | H2];
        [ | destruct (Z.lt_ge_cases c 0x10000) as [H3 | H3] ] ].
  - rewrite utf8_bytes_1 by lia. utf8_eval. reflexivity.
  - rewrite utf8_bytes_2 by lia. utf8_eval.
    bits_to_arith. rewrite lor_shiftl_6 by dlia. cbn [app]. f_equal. dlia.
  - rewrite utf8_bytes_3 by lia. utf8_eval.
    all: bits_to_arith; rewrite !lor_shiftl_6 by dlia; cbn [app]; f_equal; dlia.
  - rewrite utf8_bytes_4 by lia. utf8_eval.
    all: bits_to_arith; rewrite !lor_shiftl_6 by dlia; cbn [app]; f_equal; dlia.
Qed.

Lemma utf16_units_bmp u : 0 <= u < 0x10000 -> Js.utf16_units u = [u].
Proof. intros H. unfold Js.utf16_units. decide_test. reflexivity. Qed.

Lemma surrogate_pair_range hi lo :
  Js.is_high_surrogate hi = true -> Js.is_low_surrogate lo = true ->
  0x10000 <= Js.surrogate_pair hi lo < 0x110000.
Proof.
  unfold Js.is_high_surrogate, Js.is_low_surrogate, Js.surrogate_pair.
  rewrite !andb_true_iff, !Z.leb_le, shiftl_10. lia.
Qed.

Lemma utf16_units_pair hi lo :
  Js.is_high_surrogate hi = true -> Js.is_low_surrogate lo = true ->
  Js.utf16_units (Js.surrogate_pair hi lo) = [hi; lo].
Proof.
  intros Hh Hl. pose proof (surrogate_pair_range hi lo Hh Hl) as Hr.
  unfold Js.utf16_units. decide_test.
  revert Hh Hl Hr. unfold Js.is_high_surrogate, Js.is_low_surrogate, Js.surrogate_pair.
  rewrite !andb_true_iff, !Z.leb_le. bits_to_arith. intros Hh Hl Hr.
  f_equal; [ dlia | f_equal; dlia ].
Qed.

(** Decoding the UTF-8 encoding of a well-formed string gives the string. *)
Lemma toString_from_bounded (n : nat) :
  forall s, (List.length s <= n)%nat -> Js.well_formed s = true ->
            Js.toString (Js.from s) = s.
Proof.
  induction n as [| n IH]; intros s Hlen Hwf.
  - destruct s; [reflexivity | cbn in Hlen; lia].
  - destruct s as [| u rest]; [reflexivity |].
    cbn [Js.well_formed Js.from] in *.
    apply andb_true_iff in Hwf. destruct Hwf as [Hu Hwf].
    apply andb_true_iff in Hu. destruct Hu as [Hu0 Hu1].
    apply Z.leb_le in Hu0, Hu1.
    destruct (Js.is_high_surrogate u) eqn:Hh.
    + destruct rest as [| l rest']; [discriminate |].
      apply andb_true_iff in Hwf. destruct Hwf as [Hl Hwf]. rewrite Hl.
      pose proof (surrogate_pair_range u l Hh Hl) as Hr.
      unfold Js.toString. rewrite utf8_decode_bytes by (unfold scalar; lia).
      cbn [flat_map]. rewrite utf16_units_pair by assumption.
      cbn [app]. do 2 f_equal. apply IH; [cbn in Hlen; lia | exact Hwf].
    + apply andb_true_iff in Hwf. destruct Hwf as [Hl Hwf].
      apply negb_true_iff in Hl. rewrite Hl.
      assert (Hs : scalar u).
      { revert Hh Hl. unfold Js.is_high_surrogate, Js.is_low_surrogate, scalar.
        rewrite !andb_false_iff, !Z.leb_gt. lia. }
      unfold Js.toString. rewrite utf8_decode_bytes by exact Hs.
      cbn [flat_map]. rewrite utf16_units_bmp by lia.
      cbn [app]. f_equal. apply IH; [cbn in Hlen; lia | exact Hwf].
Qed.

Lemma toString_from s : Js.well_formed s = true -> Js.toString (Js.from s) = s.
Proof. apply (toString_from_bounded (List.length s)). lia. Qed.

(* ================================================================== *)
(** ** Big-endian 32-bit fields *)

Lemma writeUInt32BE_alloc v :
  0 <= v <= 4294967295 -> Js.writeUInt32BE (Js.alloc 4) v 0 = Ok (be32 v).
Proof.
  intros Hv. unfold Js.writeUInt32BE.
  change (Js.length (Js.alloc 4)) with 4.
  repeat decide_test. reflexivity.
Qed.

Lemma readUInt32BE_be32 v rest :
  0 <= v <= 4294967295 -> Js.readUInt32BE (be32 v ++ rest) 0 = Ok v.
Proof.
  intros Hv. unfold Js.readUInt32BE, Js.length.
  rewrite length_app. cbn [List.length be32].
  decide_test. cbn [Z.to_nat skipn app be32]. f_equal.
  rewrite !land_255, shiftr_8, shiftr_16, shiftr_24. dlia.
Qed.

Lemma length_be32 v : List.length (be32 v) = 4%nat.
Proof. reflexivity. Qed.

(* ================================================================== *)
(** ** subarray *)

Lemma subarray_middle (pre mid post : Js.Buffer) :
  Js.subarray (pre ++ mid ++ post) (Js.length pre) (Js.length pre + Js.length mid)
  = mid.
Proof.
  unfold Js.subarray, Js.clamp_index, Js.length.
  rewrite !length_app. repeat decide_test.
  rewrite Z.min_l, Z.min_l by lia.
  rewrite Nat2Z.id.
  replace (Z.to_nat (Z.of_nat (List.length pre) + Z.of_nat (List.length mid)
                     - Z.of_nat (List.length pre)))
    with (List.length mid) by lia.
  rewrite skipn_app, skipn_all, Nat.sub_diag. cbn [skipn app].
  rewrite firstn_app, firstn_all, Nat.sub_diag. cbn [firstn]. apply app_nil_r.
Qed.

Lemma subarray_from_app (pre post : Js.Buffer) :
  Js.subarray_from (pre ++ post) (Js.length pre) = post.
Proof.
  unfold Js.subarray_from.
  replace (Js.length (pre ++ post)) with (Js.length pre + Js.length post)
    by (unfold Js.length; rewrite length_app; lia).
  rewrite <- (app_nil_r post) at 1. apply subarray_middle.
Qed.

Lemma subarray_prefix (mid post : Js.Buffer) :
  Js.subarray (mid ++ post) 0 (Js.length mid) = mid.
Proof. apply (subarray_middle [] mid post). Qed.

(** subarray past the end of the buffer stops at the end. *)
Lemma subarray_clamped (pre v : Js.Buffer) (n : Z) :
  Js.length v <= n ->
  Js.subarray (pre ++ v) (Js.length pre) (Js.length pre + n) = v.
Proof.
  intros Hn. unfold Js.subarray, Js.clamp_index, Js.length in *.
  rewrite !length_app. repeat decide_test.
  rewrite (Z.min_l (Z.of_nat (List.length pre))) by lia.
  rewrite (Z.min_r (Z.of_nat (List.length pre) + n)) by lia.
  rewrite Nat2Z.id.
  replace (Z.to_nat (Z.of_nat (List.length pre + List.length v)
                     - Z.of_nat (List.length pre)))
    with (List.length v) by lia.
  rewrite skipn_app, skipn_all, Nat.sub_diag. cbn [skipn app].
  apply firstn_all.
Qed.

(* ================================================================== *)
(** ** The layout of an encoded control frame *)

Lemma byteLength_nonneg s : 0 <= Js.byteLength s.
Proof. unfold Js.byteLength, Js.length. lia. Qed.

Lemma payload_size_nonneg tys : 0 <= payload_size tys.
Proof.
  induction tys as [| s tys IH]; cbn [payload_size fold_right]; [lia |].
  fold (payload_size tys). pose proof (byteLength_nonneg s). lia.
Qed.

Lemma length_field s : Js.length (field s) = 8 + Js.byteLength s.
Proof.
  unfold field, Js.byteLength, Js.length.
  rewrite !length_app, !length_be32. lia.
Qed.

Lemma length_fields tys : Js.length (fields tys) = payload_size tys.
Proof.
  induction tys as [| s tys IH]; [reflexivity |].
  cbn [fields flat_map payload_size fold_right].
  fold (fields tys) (payload_size tys). rewrite <- IH, <- length_field.
  unfold Js.length. rewrite length_app. lia.
Qed.

Lemma payload_size_count tys : 8 * Z.of_nat (List.length tys) <= payload_size tys.
Proof.
  induction tys as [| s tys IH]; cbn [payload_size fold_right List.length]; [lia |].
  fold (payload_size tys). pose proof (byteLength_nonneg s). lia.
Qed.

Lemma payload_size_In s tys : In s tys -> 8 + Js.byteLength s <= payload_size tys.
Proof.
  induction tys as [| t tys IH]; [contradiction |].
  cbn [payload_size fold_right]. fold (payload_size tys).
  pose proof (payload_size_nonneg tys). pose proof (byteLength_nonneg t).
  intros [-> | Hin]; [lia | specialize (IH Hin); lia].
Qed.

Lemma push_content_types_ok tys : forall buffers,
  payload_size tys <= 4294967295 ->
  push_content_types tys buffers
  = Ok (buffers ++ flat_map (fun s => [be32 CONTENT_TYPE; be32 (Js.byteLength s); Js.from s]) tys).
Proof.
  induction tys as [| s tys IH]; intros buffers Hsz.
  - cbn. rewrite app_nil_r. reflexivity.
  - cbn [push_content_types flat_map].
    cbn [payload_size fold_right] in Hsz. fold (payload_size tys) in Hsz.
    pose proof (payload_size_nonneg tys). pose proof (byteLength_nonneg s).
    rewrite !writeUInt32BE_alloc by (unfold CONTENT_TYPE; lia).
    cbn [bind]. rewrite IH by lia. rewrite <- app_assoc. reflexivity.
Qed.

Lemma concat_field_buffers tys :
  Js.concat (flat_map (fun s => [be32 CONTENT_TYPE; be32 (Js.byteLength s); Js.from s]) tys)
  = fields tys.
Proof.
  unfold Js.concat.
  induction tys as [| s tys IH]; [reflexivity |].
  cbn [flat_map fields]. rewrite concat_app, IH.
  cbn [List.concat field]. rewrite app_nil_r, <- !app_assoc. reflexivity.
Qed.

(** What encode produces when it does not throw: the type, then the
    fields in the order of the array. *)
Lemma encode_layout ty tys :
  is_STOP_or_FINISH ty = false ->
  payload_size tys <= 4294967295 ->
  Control.encode ty (Some tys) = Ok (be32 (value ty) ++ fields tys).
Proof.
  intros Hty Hsz. unfold Control.encode. rewrite Hty. cbn [truthy andb].
  rewrite writeUInt32BE_alloc by (destruct ty; cbn; lia). cbn [bind].
  rewrite push_content_types_ok by exact Hsz. cbn [bind]. f_equal.
  unfold Js.concat. rewrite concat_app. cbn [List.concat].
  rewrite app_nil_r. f_equal. apply concat_field_buffers.
Qed.

Lemma encode_without_array ty :
  Control.encode ty None = Ok (be32 (value ty)).
Proof.
  unfold Control.encode. cbn [truthy andb].
  rewrite writeUInt32BE_alloc by (destruct ty; cbn; lia). reflexivity.
Qed.

(** The three reads of one iteration of the loop of decode. *)
Lemma subarray_field_type pre s post :
  Js.subarray (pre ++ field s ++ post) (Js.length pre) (Js.length pre + 4)
  = be32 CONTENT_TYPE.
Proof.
  unfold field. rewrite <- !app_assoc.
  apply (subarray_middle pre (be32 CONTENT_TYPE)).
Qed.

Lemma subarray_field_length pre s post :
  Js.subarray (pre ++ field s ++ post) (Js.length pre + 4) (Js.length pre + 4 + 4)
  = be32 (Js.byteLength s).
Proof.
  unfold field. rewrite <- !app_assoc.
  rewrite (app_assoc pre (be32 CONTENT_TYPE)).
  replace (Js.length pre + 4) with (Js.length (pre ++ be32 CONTENT_TYPE))
    by (unfold Js.length; rewrite length_app, length_be32; lia).
  apply (subarray_middle _ (be32 (Js.byteLength s))).
Qed.

Lemma subarray_field_value pre s post :
  Js.subarray (pre ++ field s ++ post) (Js.length pre + 4 + 4)
              (Js.length pre + 4 + 4 + Js.byteLength s)
  = Js.from s.
Proof.
  unfold field. rewrite <- !app_assoc.
  rewrite (app_assoc pre (be32 CONTENT_TYPE)).
  rewrite (app_assoc (pre ++ be32 CONTENT_TYPE) (be32 (Js.byteLength s))).
  replace (Js.length pre + 4 + 4)
    with (Js.length ((pre ++ be32 CONTENT_TYPE) ++ be32 (Js.byteLength s)))
    by (unfold Js.length; rewrite !length_app, !length_be32; lia).
  apply (subarray_middle _ (Js.from s)).
Qed.

(** One iteration of the loop of decode on a well-laid-out field. *)
Lemma decode_loop_field bound pre s post acc :
  Js.byteLength s <= CONTROL_FIELD_CONTENT_TYPE_LENGTH_MAX ->
  Control.decode_loop (S bound) (pre ++ field s ++ post) (Js.length pre) acc
  = Control.decode_loop bound (pre ++ field s ++ post)
      (Js.length (pre ++ field s)) (acc ++ [Js.toString (Js.from s)]).
Proof.
  intros Hlen. pose proof (byteLength_nonneg s) as Hnn.
  cbn [Control.decode_loop].
  unfold CONTROL_FIELD_CONTENT_TYPE_LENGTH_MAX in *.
  assert (Hlt : (Js.length pre <? Js.length (pre ++ field s ++ post)) = true).
  { apply Z.ltb_lt. unfold Js.length, field. rewrite !length_app, length_be32. lia. }
  rewrite Hlt, subarray_field_type.
  rewrite <- (app_nil_r (be32 CONTENT_TYPE)).
  rewrite readUInt32BE_be32 by (unfold CONTENT_TYPE; lia).
  cbn [bind]. rewrite Z.eqb_refl. cbn [negb].
  rewrite subarray_field_length.
  rewrite <- (app_nil_r (be32 (Js.byteLength s))).
  rewrite readUInt32BE_be32 by lia.
  cbn [bind]. decide_test.
  rewrite subarray_field_value.
  f_equal. unfold field, Js.byteLength, Js.length.
  rewrite !length_app, !length_be32. lia.
Qed.

Lemma decode_loop_fields tys : forall bound pre acc,
  (List.length tys < bound)%nat ->
  Forall (fun s => Js.well_formed s = true) tys ->
  payload_size tys <= CONTROL_FRAME_LENGTH_MAX ->
  Control.decode_loop bound (pre ++ fields tys) (Js.length pre) acc
  = Ok (acc ++ tys).
Proof.
  induction tys as [| s tys IH]; intros bound pre acc Hb Hwf Hsz.
  - destruct bound as [| bound]; [cbn in Hb; lia |].
    cbn [fields flat_map Control.decode_loop]. rewrite !app_nil_r.
    rewrite Z.ltb_irrefl. reflexivity.
  - destruct bound as [| bound]; [cbn in Hb; lia |].
    inversion Hwf as [| ? ? Hs Hwf']; subst.
    cbn [payload_size fold_right] in Hsz. fold (payload_size tys) in Hsz.
    pose proof (payload_size_nonneg tys). pose proof (byteLength_nonneg s).
    unfold CONTROL_FRAME_LENGTH_MAX in *.
    cbn [fields flat_map]. fold (fields tys).
    rewrite decode_loop_field by (unfold CONTROL_FIELD_CONTENT_TYPE_LENGTH_MAX; lia).
    rewrite toString_from by exact Hs.
    rewrite (app_assoc pre), IH; try assumption.
    + rewrite <- app_assoc. reflexivity.
    + cbn in Hb. lia.
    + lia.
Qed.

Lemma values_includes_value ty : values_includes (value ty) = true.
Proof. destruct ty; reflexivity. Qed.

(** decode on the layout of encode. *)
Lemma decode_layout ty tys :
  Forall (fun s => Js.well_formed s = true) tys ->
  payload_size tys <= CONTROL_FRAME_LENGTH_MAX ->
  Control.decode (be32 (value ty) ++ fields tys)
  = Ok {| Control.type := value ty; Control.contentTypes := Some tys |}.
Proof.
  intros Hwf Hsz. unfold Control.decode.
  assert (Hlen : Js.length (be32 (value ty) ++ fields tys) = 4 + payload_size tys).
  { rewrite <- length_fields. unfold Js.length. rewrite length_app, length_be32. lia. }
  pose proof (payload_size_nonneg tys) as Hnn.
  rewrite Hlen. decide_test.
  assert (Hsub : Js.subarray_from (be32 (value ty) ++ fields tys) 4 = fields tys)
    by apply (subarray_from_app (be32 (value ty))).
  assert (Hpre : Js.subarray (be32 (value ty) ++ fields tys) 0 4 = be32 (value ty))
    by apply (subarray_prefix (be32 (value ty))).
  rewrite !Hsub, Hpre, length_fields.
  unfold CONTROL_FRAME_LENGTH_MAX in *. decide_test.
  rewrite <- (app_nil_r (be32 (value ty))).
  rewrite readUInt32BE_be32 by (destruct ty; cbn; lia).
  cbn [bind]. rewrite values_includes_value. cbn [negb].
  destruct (0 <? payload_size tys) eqn:Hpos.
  - pose proof (decode_loop_fields tys (S (List.length (fields tys))) [] []) as Hloop.
    cbn [app] in Hloop. change (Js.length []) with 0 in Hloop.
    rewrite Hloop; try assumption; [reflexivity |].
    pose proof (payload_size_count tys) as Hcount.
    rewrite <- length_fields in Hcount. unfold Js.length in Hcount. lia.
  - apply Z.ltb_ge in Hpos. pose proof (payload_size_count tys) as Hcount.
    destruct tys; [reflexivity | cbn [List.length] in Hcount; lia].
Qed.

(** The shape of the frames that decode reads short: one field that declares
    [n] bytes and has the fewer bytes [v]. *)
Lemma decode_short_field ty n v :
  Js.length v < n <= CONTROL_FIELD_CONTENT_TYPE_LENGTH_MAX ->
  8 + Js.length v <= CONTROL_FRAME_LENGTH_MAX ->
  Control.decode (be32 (value ty) ++ be32 CONTENT_TYPE ++ be32 n ++ v)
  = Ok {| Control.type := value ty; Control.contentTypes := Some [Js.toString v] |}.
Proof.
  unfold CONTROL_FIELD_CONTENT_TYPE_LENGTH_MAX, CONTROL_FRAME_LENGTH_MAX.
  intros Hn Hfit.
  assert (Hv : 0 <= Js.length v) by (unfold Js.length; lia).
  unfold Control.decode.
  set (ctb := be32 CONTENT_TYPE ++ be32 n ++ v).
  assert (Hctb : Js.length ctb = 8 + Js.length v).
  { unfold ctb, Js.length. rewrite !length_app, !length_be32. lia. }
  assert (Hlen : Js.length (be32 (value ty) ++ ctb) = 12 + Js.length v).
  { unfold Js.length in *. rewrite length_app, length_be32. lia. }
  rewrite Hlen. decide_test.
  assert (Hsub : Js.subarray_from (be32 (value ty) ++ ctb) 4 = ctb)
    by apply (subarray_from_app (be32 (value ty))).
  assert (Hpre : Js.subarray (be32 (value ty) ++ ctb) 0 4 = be32 (value ty))
    by apply (subarray_prefix (be32 (value ty))).
  rewrite !Hsub, Hpre, Hctb.
  unfold CONTROL_FRAME_LENGTH_MAX. decide_test.
  rewrite <- (app_nil_r (be32 (value ty))).
  rewrite readUInt32BE_be32 by (destruct ty; cbn; lia).
  cbn [bind]. rewrite values_includes_value. cbn [negb]. decide_test.
  assert (Hbound : exists b, S (List.length ctb) = S (S b)).
  { exists (List.length ctb - 1)%nat. unfold Js.length in Hctb, Hv. lia. }
  destruct Hbound as [b ->].
  cbn [Control.decode_loop]. rewrite Hctb. decide_test.
  assert (H1 : Js.subarray ctb 0 (0 + 4) = be32 CONTENT_TYPE)
    by apply (subarray_prefix (be32 CONTENT_TYPE)).
  assert (H2 : Js.subarray ctb (0 + 4) (0 + 4 + 4) = be32 n)
    by apply (subarray_middle (be32 CONTENT_TYPE) (be32 n) v).
  assert (H3 : Js.subarray ctb (0 + 4 + 4) (0 + 4 + 4 + n) = v).
  { unfold ctb. rewrite app_assoc.
    apply (subarray_clamped (be32 CONTENT_TYPE ++ be32 n) v n). lia. }
  rewrite H1, <- (app_nil_r (be32 CONTENT_TYPE)).
  rewrite readUInt32BE_be32 by (unfold CONTENT_TYPE; lia).
  cbn [bind]. rewrite Z.eqb_refl. cbn [negb].
  rewrite H2, <- (app_nil_r (be32 n)).
  rewrite readUInt32BE_be32 by lia.
  cbn [bind]. unfold CONTROL_FIELD_CONTENT_TYPE_LENGTH_MAX. decide_test.
  rewrite H3.
  destruct b; cbn [Control.decode_loop]; repeat decide_test; reflexivity.
Qed.

(* ================================================================== *)
(** ** decode always has a result *)

Lemma readUInt32BE_result buf offset : Js.readUInt32BE buf offset <> NoResult.
Proof.
  unfold Js.readUInt32BE.
  destruct ((offset <? 0) || (Js.length buf <? offset + 4)); [discriminate |].
  destruct (skipn (Z.to_nat offset) buf) as [| a [| b [| c [| d l]]]]; discriminate.
Qed.

Lemma Forall_firstn_of {A : Type} (P : A -> Prop) (n : nat) (l : list A) :
  Forall P l -> Forall P (firstn n l).
Proof.
  intros H. rewrite <- (firstn_skipn n l) in H.
  apply Forall_app in H. apply H.
Qed.

Lemma Forall_skipn_of {A : Type} (P : A -> Prop) (n : nat) (l : list A) :
  Forall P l -> Forall P (skipn n l).
Proof.
  intros H. rewrite <- (firstn_skipn n l) in H.
  apply Forall_app in H. apply H.
Qed.

Lemma subarray_bytes buf i j : Forall is_byte buf -> Forall is_byte (Js.subarray buf i j).
Proof.
  intros H. unfold Js.subarray. apply Forall_firstn_of, Forall_skipn_of, H.
Qed.

Lemma readUInt32BE_nonneg buf v :
  Forall is_byte buf -> Js.readUInt32BE buf 0 = Ok v -> 0 <= v.
Proof.
  unfold Js.readUInt32BE. intros Hb.
  destruct ((0 <? 0) || (Js.length buf <? 0 + 4)); [discriminate |].
  cbn [Z.to_nat skipn].
  destruct buf as [| a [| b [| c [| d l]]]]; try discriminate.
  intros [= <-].
  repeat match goal with
         | H : Forall _ (_ :: _) |- _ => inversion H; clear H; subst
         end.
  unfold is_byte in *. lia.
Qed.

Lemma decode_loop_result bound : forall buf offset acc,
  Forall is_byte buf -> 0 <= offset ->
  (Z.to_nat (Js.length buf - offset) < bound)%nat ->
  Control.decode_loop bound buf offset acc <> NoResult.
Proof.
  induction bound as [| bound IH]; intros buf offset acc Hb Hoff Hbound; [lia |].
  cbn [Control.decode_loop].
  destruct (Z.ltb_spec offset (Js.length buf)) as [Hlt | Hge]; [| discriminate].
  destruct (Js.readUInt32BE (Js.subarray buf offset (offset + 4)) 0)
    as [fieldType | e |] eqn:Hft; cbn [bind];
    [ | discriminate | destruct (readUInt32BE_result _ _ Hft) ].
  destruct (negb (fieldType =? CONTENT_TYPE)); [discriminate |].
  destruct (Js.readUInt32BE (Js.subarray buf (offset + 4) (offset + 4 + 4)) 0)
    as [len | e |] eqn:Hlen; cbn [bind];
    [ | discriminate | destruct (readUInt32BE_result _ _ Hlen) ].
  destruct (CONTROL_FIELD_CONTENT_TYPE_LENGTH_MAX <? len); [discriminate |].
  apply readUInt32BE_nonneg in Hlen; [| apply subarray_bytes; exact Hb].
  apply IH; [exact Hb | lia | lia].
Qed.

Lemma decode_result buffer : Forall is_byte buffer -> Control.decode buffer <> NoResult.
Proof.
  intros Hb. unfold Control.decode.
  destruct (Js.length buffer <? 4); [discriminate |].
  destruct (CONTROL_FRAME_LENGTH_MAX <? Js.length (Js.subarray_from buffer 4));
    [discriminate |].
  destruct (Js.readUInt32BE (Js.subarray buffer 0 4) 0) as [t | e |] eqn:Ht;
    cbn [bind]; [ | discriminate | destruct (readUInt32BE_result _ _ Ht) ].
  destruct (negb (values_includes t)); [discriminate |].
  destruct (0 <? Js.length (Js.subarray_from buffer 4)); cbn [bind]; [| discriminate].
  destruct (Control.decode_loop _ _ 0 []) as [cts | e |] eqn:Hloop;
    cbn [bind]; try discriminate.
  exfalso. revert Hloop. apply decode_loop_result.
  - apply subarray_bytes. exact Hb.
  - lia.
  - unfold Js.length. lia.
Qed.

(* ================================================================== *)
(** ** What sendControlFrame writes *)

Lemma sendControlFrame_sends ty cts s :
  truthy cts && is_STOP_or_FINISH ty = false ->
  payload_size (match cts with Some l => l | None => [] end) <= 4294967291 ->
  Encoder.sendControlFrame ty cts s
  = (Ok tt,
     {| written := written s ++
          [ESCAPE_SEQUENCE;
           be32 (4 + payload_size (match cts with Some l => l | None => [] end));
           be32 (value ty) ++ fields (match cts with Some l => l | None => [] end)];
        write_fails := write_fails s;
        events := events s |}).
Proof.
  intros Hty Hsz. unfold Encoder.sendControlFrame. rewrite Hty.
  unfold bindA, lift, socket_write.
  rewrite writeUInt32BE_alloc by (destruct ty; cbn; lia).
  assert (Hbuf :
    match cts with
    | Some l => push_content_types l [be32 (value ty)]
    | None => Ok [be32 (value ty)]
    end = Ok (be32 (value ty)
              :: flat_map (fun s => [be32 CONTENT_TYPE; be32 (Js.byteLength s); Js.from s])
                          (match cts with Some l => l | None => [] end))).
  { destruct cts as [l |]; [| reflexivity].
    rewrite push_content_types_ok by lia. reflexivity. }
  rewrite Hbuf. cbn [written write_fails events].
  assert (Hcat : Js.concat (be32 (value ty)
              :: flat_map (fun s => [be32 CONTENT_TYPE; be32 (Js.byteLength s); Js.from s])
                          (match cts with Some l => l | None => [] end))
            = be32 (value ty) ++ fields (match cts with Some l => l | None => [] end)).
  { unfold Js.concat. cbn [List.concat]. f_equal. apply concat_field_buffers. }
  rewrite Hcat.
  assert (Hlen : Js.length (be32 (value ty) ++ fields (match cts with Some l => l | None => [] end))
                 = 4 + payload_size (match cts with Some l => l | None => [] end)).
  { rewrite <- length_fields. unfold Js.length. rewrite length_app, length_be32. lia. }
  rewrite Hlen.
  pose proof (payload_size_nonneg (match cts with Some l => l | None => [] end)).
  rewrite writeUInt32BE_alloc by lia.
  rewrite <- !app_assoc. reflexivity.
Qed.

(** Whatever sendControlFrame does, it leaves the pending events alone and
    it has a result. *)
Lemma sendControlFrame_events ty cts s :
  events (snd (Encoder.sendControlFrame ty cts s)) = events s
  /\ fst (Encoder.sendControlFrame ty cts s) <> NoResult.
Proof.
  unfold Encoder.sendControlFrame.
  destruct (truthy cts && is_STOP_or_FINISH ty); [split; [reflexivity | discriminate] |].
  unfold bindA, lift, socket_write.
  rewrite writeUInt32BE_alloc by (destruct ty; cbn; lia).
  destruct (match cts with
            | Some l => push_content_types l [be32 (value ty)]
            | None => Ok [be32 (value ty)]
            end) as [buffers | e |] eqn:Hb.
  - cbn [written write_fails events].
    destruct (Js.writeUInt32BE (Js.alloc 4) (Js.length (Js.concat buffers)) 0)
      as [lb | e |] eqn:Hl; cbn; split; try reflexivity; try discriminate.
    revert Hl. unfold Js.writeUInt32BE.
    repeat match goal with |- context [if ?t then _ else _] => destruct t end;
      discriminate.
  - split; [reflexivity | discriminate].
  - exfalso. destruct cts as [l |]; [| discriminate].
    revert Hb. generalize [be32 (value ty)].
    induction l as [| c l IH]; intros bs; cbn [push_content_types]; [discriminate |].
    rewrite writeUInt32BE_alloc by (unfold CONTENT_TYPE; lia). cbn [bind].
    unfold Js.writeUInt32BE at 1.
    repeat match goal with |- context [if ?t then _ else _] => destruct t end;
      cbn [bind]; try discriminate. apply IH.
Qed.

(* ================================================================== *)
(** ** Reads *)

(** Once settled, the promise of a read keeps its value: a read settles at
    most once. *)
Lemma Encoder_recv_step_settled st ev :
  promise st <> Pending -> promise (Encoder.recv_step st ev) = promise st.
Proof.
  intros Hp. destruct st as [d e c t p]. cbn in Hp.
  destruct p; [congruence | |];
    destruct ev; cbn; destruct d, e, c, t; reflexivity.
Qed.

Lemma SocketWriter_recv_step_settled st ev :
  promise st <> Pending -> promise (SocketWriter.recv_step st ev) = promise st.
Proof.
  intros Hp. destruct st as [d e c t p]. cbn in Hp.
  destruct p; [congruence | |];
    destruct ev; cbn; destruct d, t; reflexivity.
Qed.

(** A read whose first event is 'data' resolves with the data. *)
Lemma Encoder_recv_data timeout data rest s :
  events s = DataEvent data :: rest ->
  Encoder.recv timeout s
  = (Ok data, {| written := written s; write_fails := write_fails s; events := rest |}).
Proof.
  intros He. unfold Encoder.recv, await_recv. rewrite He.
  cbn. destruct rest; reflexivity.
Qed.

Lemma SocketWriter_recv_data this timeout data rest s :
  events s = DataEvent data :: rest ->
  SocketWriter.recv this timeout s
  = (Ok data, {| written := written s; write_fails := write_fails s; events := rest |}).
Proof.
  intros He. unfold SocketWriter.recv, await_recv. rewrite He.
  cbn. destruct rest; reflexivity.
Qed.

(** What does hold of Encoder.recv: when the timer fires first, the read
    fails with the timeout error and none of its callbacks is left. *)
Lemma Encoder_recv_timeout :
  promise (Encoder.recv_step (Encoder.recv_start (Some 5000)) TimerEvent)
  = Rejected TimeoutWaitingForData
  /\ no_callbacks (Encoder.recv_step (Encoder.recv_start (Some 5000)) TimerEvent)
     = true.
Proof. split; reflexivity. Qed.

(** After 'data', the timer of Encoder.recv is still pending, whatever the
    timeout and the data. *)
Lemma Encoder_recv_timer_survives_data t data :
  t <> 0 ->
  timer (Encoder.recv_step (Encoder.recv_start (Some t)) (DataEvent data))
  = Some (Some t).
Proof.
  intros Ht. unfold Encoder.recv_start, Encoder.truthy_number.
  destruct (Z.eqb_spec t 0); [contradiction |]. reflexivity.
Qed.

(** Without a timeout argument Encoder.recv sets no timer at all. *)
Lemma Encoder_recv_without_timeout :
  timer (Encoder.recv_start None) = None.
Proof. reflexivity. Qed.

(* ================================================================== *)
(** ** Control.checkContentTypes *)

Lemma equals_eq a b : Js.equals a b = true <-> a = b.
Proof.
  unfold Js.equals. destruct (list_eq_dec Z.eq_dec a b); split; congruence.
Qed.

Lemma includes_In l ct : Control.includes l ct = true <-> In ct l.
Proof.
  unfold Control.includes. rewrite existsb_exists. split.
  - intros [x [Hin Heq]]. apply equals_eq in Heq. subst. exact Hin.
  - intros Hin. exists ct. split; [exact Hin | apply equals_eq; reflexivity].
Qed.

Lemma checkContentTypes_spec this candidate :
  Control.checkContentTypes this candidate = true <->
  exists configured,
    Control.this_contentTypes this = Some configured
    /\ exists ct, In ct configured /\ In ct candidate.
Proof.
  unfold Control.checkContentTypes.
  destruct (Control.this_contentTypes this) as [cfg |].
  - rewrite existsb_exists. split.
    + intros [ct [Hin Hinc]]. apply includes_In in Hinc. eauto.
    + intros [cfg' [[= <-] [ct [Hin Hinc]]]]. exists ct.
      split; [exact Hin | apply includes_In; exact Hinc].
  - split; [discriminate | intros [cfg [H _]]; discriminate].
Qed.

(* ================================================================== *)
(** ** Steps of the handshakes *)

Lemma not_STOP_or_FINISH ty :
  ty <> STOP -> ty <> FINISH -> is_STOP_or_FINISH ty = false.
Proof. destruct ty; intros H1 H2; try reflexivity; congruence. Qed.

Lemma bufferToControlFrameType_escape rest :
  Encoder.bufferToControlFrameType (ESCAPE_SEQUENCE ++ rest) = Ok 0.
Proof.
  unfold Encoder.bufferToControlFrameType, Js.readUInt32BE, Js.length.
  rewrite length_app. cbn [List.length ESCAPE_SEQUENCE].
  decide_test. reflexivity.
Qed.

Lemma writeFrame_sends this frame chunk s :
  FrameEncoder.encode frame = Ok chunk ->
  write_fails s = false ->
  SocketWriter.writeFrame this frame s
  = (Ok tt, {| written := written s ++ [chunk]; write_fails := false;
               events := events s |}).
Proof.
  intros Hframe Hw. unfold SocketWriter.writeFrame, bindA, lift, socket_write.
  rewrite Hframe. cbn [written write_fails events]. rewrite Hw. reflexivity.
Qed.

(** A decoded frame always has its array of content types. *)
Lemma decode_contentTypes_array buffer decoded :
  Control.decode buffer = Ok decoded ->
  exists tys, Control.contentTypes decoded = Some tys.
Proof.
  unfold Control.decode.
  repeat match goal with
         | |- context [if ?t then _ else _] => destruct t; try discriminate
         | |- context [bind ?m _] => destruct m; cbn [bind]; try discriminate
         end;
    intros [= <-]; cbn; eauto.
Qed.

(** handshake writes one chunk at most, whatever the peer does. *)
Lemma handshake_writes_at_most_one_chunk this s :
  exists chunks,
    written (snd (SocketWriter.handshake this s)) = written s ++ chunks
    /\ (List.length chunks <= 1)%nat.
Proof.
  unfold SocketWriter.handshake, bindA, lift.
  destruct (Control.encode_ (SocketWriter.control this) READY) as [ready | e |];
    try (exists []; rewrite app_nil_r; split; [reflexivity | cbn; lia]).
  unfold SocketWriter.writeFrame, bindA, lift.
  destruct (FrameEncoder.encode ready) as [chunk | e |];
    try (exists []; rewrite app_nil_r; split; [reflexivity | cbn; lia]).
  unfold socket_write. cbn [written write_fails events].
  exists [chunk].
  split; [| cbn; lia].
  destruct (write_fails s); [reflexivity |].
  unfold SocketWriter.recv, await_recv. cbn [written write_fails events].
  destruct (dispatch_until_settled _ _ _) as [st rest].
  destruct (await (promise st)) as [frame | e |]; try reflexivity.
  cbn [written]. destruct (Control.decode_ _ frame) as [d | e |]; try reflexivity.
  destruct (negb _); [reflexivity |].
  destruct (match Control.contentTypes d with Some _ => _ | None => _ end); reflexivity.
Qed.

(** The sibling path: when the first four bytes received are 00 00 00 01,
    Writer.init goes on to send START with the configured content types. *)
Example init_sends_START_after_ACCEPT :
  Writer.init {| Writer.bidirectional := true; Writer.contentTypes := Some dns_tap |}
              (idle_socket [DataEvent accept_dns_tap])
  = (Ok tt,
     {| written := [[0; 0; 0; 0]; [0; 0; 0; 31]; ready_dns_tap;
                    [0; 0; 0; 0]; [0; 0; 0; 31];
                    [0; 0; 0; 2;  0; 0; 0; 1;  0; 0; 0; 19]
                      ++ Js.from (Js.str "application/dns-tap")];
        write_fails := false; events := [] |}).
Proof. vm_compute. reflexivity. Qed.

(** A frame cut inside the header of a field makes decode throw: the read
    of four bytes is checked by [readUInt32BE]. *)
Example decode_truncated_header_throws :
  Control.decode [0; 0; 0; 2;  0; 0; 0; 1;  0; 0; 0]
  = Throw ERR_BUFFER_OUT_OF_BOUNDS.
Proof. vm_compute. reflexivity. Qed.

(* ================================================================== *)
(** * The claims *)

(** ** Control.encode and Control.decode *)

(** C1, as amended: for ACCEPT, START and READY and every array of
    well-formed strings whose fields (8 bytes of header and the UTF-8 bytes
    of each string) take at most 512 bytes together, encode succeeds and
    decoding its result returns the same type and the same array in the same
    order. *)
Theorem roundtrip_within_frame_limit ty tys :
  ty <> STOP -> ty <> FINISH ->
  Forall (fun s => Js.well_formed s = true) tys ->
  payload_size tys <= CONTROL_FRAME_LENGTH_MAX ->
  (buffer <- Control.encode ty (Some tys) ;; Control.decode buffer)
  = Ok {| Control.type := value ty; Control.contentTypes := Some tys |}.
Proof.
  intros H1 H2 Hwf Hsz.
  rewrite encode_layout;
    [ | apply not_STOP_or_FINISH; assumption
      | unfold CONTROL_FRAME_LENGTH_MAX in Hsz; lia ].
  cbn [bind]. apply decode_layout; assumption.
Qed.

(** C1, witness: READY with an ASCII string, the empty string, a string
    outside ASCII and a surrogate pair. *)
Lemma roundtrip_within_frame_limit_witness :
  Forall (fun s => Js.well_formed s = true) sample_types
  /\ payload_size sample_types <= CONTROL_FRAME_LENGTH_MAX
  /\ (buffer <- Control.encode READY (Some sample_types) ;; Control.decode buffer)
     = Ok {| Control.type := value READY; Control.contentTypes := Some sample_types |}.
Proof.
  split; [repeat constructor |].
  split; [vm_compute; discriminate |].
  apply roundtrip_within_frame_limit.
  - discriminate.
  - discriminate.
  - repeat constructor.
  - vm_compute. discriminate.
Defined.

(** C1, counterexample to the claim as stated: START with one content type
    of exactly 512 bytes is encoded into a frame of 524 bytes, which decode
    rejects because the 520 bytes after the type exceed
    CONTROL_FRAME_LENGTH_MAX; and a string that is an unpaired surrogate
    comes back as U+FFFD. *)
Lemma roundtrip_fails_at_512_bytes :
  Js.byteLength a512 = 512
  /\ (buffer <- Control.encode START (Some [a512]) ;; Control.decode buffer)
     = Throw (LengthExceeded 524)
  /\ (buffer <- Control.encode START (Some [a512]) ;; Control.decode buffer)
     <> Ok {| Control.type := value START; Control.contentTypes := Some [a512] |}
  /\ (buffer <- Control.encode START (Some [[0xD800]]) ;; Control.decode buffer)
     = Ok {| Control.type := value START; Control.contentTypes := Some [[0xFFFD]] |}.
Proof.
  split; [vm_compute; reflexivity |].
  split; [vm_compute; reflexivity |].
  split; [vm_compute; discriminate |].
  vm_compute. reflexivity.
Qed.

(** C2, the code at the failing input: the only field of [truncated_frame]
    declares 5 bytes and 2 remain; decode does not fail, it returns the
    content type "ab" read from the 2 bytes that are there. *)
Theorem decode_reads_truncated_field :
  Control.decode truncated_frame
  = Ok {| Control.type := value START; Control.contentTypes := Some [Js.str "ab"] |}.
Proof. vm_compute. reflexivity. Qed.

(** C5, as amended: encode(START, ["application/dns-tap"]) is 00 00 00 02,
    then 00 00 00 01, then 00 00 00 13, then the 19 ASCII bytes of the
    string, 31 bytes in total, and decoding that buffer returns START with
    the same array. *)
Theorem encode_START_dns_tap :
  Js.byteLength (Js.str "application/dns-tap") = 19
  /\ Control.encode START (Some dns_tap)
     = Ok ([0; 0; 0; 2] ++ [0; 0; 0; 1] ++ [0; 0; 0; 0x13]
           ++ Js.from (Js.str "application/dns-tap"))
  /\ Js.length ([0; 0; 0; 2] ++ [0; 0; 0; 1] ++ [0; 0; 0; 0x13]
                ++ Js.from (Js.str "application/dns-tap")) = 31
  /\ Control.decode ([0; 0; 0; 2] ++ [0; 0; 0; 1] ++ [0; 0; 0; 0x13]
                     ++ Js.from (Js.str "application/dns-tap"))
     = Ok {| Control.type := value START; Control.contentTypes := Some dns_tap |}.
Proof. repeat split; vm_compute; reflexivity. Qed.

(** C5, counterexample to the claim as stated: the output is not
    00 00 00 02, 00 00 00 01, 00 00 00 14 followed by 20 bytes, and it is
    not 32 bytes long. *)
Lemma encode_START_dns_tap_not_32_bytes :
  (~ exists value : Js.Buffer,
       List.length value = 20%nat
       /\ Control.encode START (Some dns_tap)
          = Ok ([0; 0; 0; 2] ++ [0; 0; 0; 1] ++ [0; 0; 0; 0x14] ++ value))
  /\ (~ exists buffer : Js.Buffer,
       Control.encode START (Some dns_tap) = Ok buffer /\ Js.length buffer = 32).
Proof.
  split.
  - intros [v [_ H]]. vm_compute in H. discriminate H.
  - intros [b [H Hlen]]. vm_compute in H. injection H as <-.
    vm_compute in Hlen. discriminate Hlen.
Qed.

(** C7: for every non-empty array of content types, encode(STOP, array)
    and encode(FINISH, array) throw the FieldNotAllowed error; no buffer is
    returned. *)
Theorem encode_STOP_FINISH_rejects_content_types tys :
  tys <> [] ->
  Control.encode STOP (Some tys) = Throw FieldNotAllowed
  /\ Control.encode FINISH (Some tys) = Throw FieldNotAllowed.
Proof. intros _. split; reflexivity. Qed.

(** C7, witness: the array of the test suite. *)
Lemma encode_STOP_FINISH_rejects_content_types_witness :
  [Js.str "application/json"] <> []
  /\ Control.encode STOP (Some [Js.str "application/json"]) = Throw FieldNotAllowed
  /\ Control.encode FINISH (Some [Js.str "application/json"]) = Throw FieldNotAllowed.
Proof.
  split; [discriminate |].
  apply encode_STOP_FINISH_rejects_content_types. discriminate.
Defined.

(** C10: encode(STOP, []) and encode(FINISH, []) throw the FieldNotAllowed
    error as well: every array that is passed, the empty one included, is
    rejected for STOP and FINISH, by Control.encode and by
    Encoder.sendControlFrame alike (which then writes nothing). *)
Theorem encode_STOP_FINISH_rejects_empty_array :
  Control.encode STOP (Some []) = Throw FieldNotAllowed
  /\ Control.encode FINISH (Some []) = Throw FieldNotAllowed
  /\ (forall tys, Control.encode STOP (Some tys) = Throw FieldNotAllowed
                  /\ Control.encode FINISH (Some tys) = Throw FieldNotAllowed)
  /\ (forall tys s,
        Encoder.sendControlFrame STOP (Some tys) s = (Throw FieldNotAllowed, s)
        /\ Encoder.sendControlFrame FINISH (Some tys) s = (Throw FieldNotAllowed, s)).
Proof. repeat split. Qed.

(** ** Control.checkContentTypes *)

(** C6: checkContentTypes returns true if and only if the configured
    content types are set, not empty, and have a string in common with the
    candidate list (the same code units); it returns false when they are
    unset or empty, whatever the candidate. *)
Theorem checkContentTypes_iff_common this candidate :
  (Control.checkContentTypes this candidate = true <->
   exists configured,
     Control.this_contentTypes this = Some configured
     /\ configured <> []
     /\ exists ct, In ct configured /\ In ct candidate)
  /\ Control.checkContentTypes {| Control.this_contentTypes := None |} candidate = false
  /\ Control.checkContentTypes {| Control.this_contentTypes := Some [] |} candidate = false.
Proof.
  split; [| split; reflexivity].
  rewrite checkContentTypes_spec. split.
  - intros [cfg [Hc [ct [Hin Hinc]]]]. exists cfg. split; [exact Hc |].
    split; [intros ->; contradiction | eauto].
  - intros [cfg [Hc [_ Hex]]]. eauto.
Qed.

(** ** Reads *)

(** C4, the code at the failing inputs.  Encoder.recv(socket, 5000): when
    'data' fires, the read resolves and the three socket listeners are
    removed, but the timer set with setTimeout stays pending.
    SocketWriter.recv(5000): the timer is set without a delay; when it fires,
    the read is rejected and the 'data' listener stays registered; when
    'data' fires first, the timer stays pending. *)
Theorem recv_leaves_callbacks_registered :
  (promise Encoder_read_after_data = Resolved received
   /\ timer Encoder_read_after_data = Some (Some 5000)
   /\ no_callbacks Encoder_read_after_data = false)
  /\ timer (SocketWriter.recv_start (Some 5000)) = Some None
  /\ (promise SocketWriter_read_after_timer = Rejected CommunicationTimedOut
      /\ on_data SocketWriter_read_after_timer = true
      /\ no_callbacks SocketWriter_read_after_timer = false)
  /\ (promise SocketWriter_read_after_data = Resolved received
      /\ timer SocketWriter_read_after_data = Some None
      /\ no_callbacks SocketWriter_read_after_data = false).
Proof. repeat split. Qed.

(** ** Writer.init *)

(** C8: bufferToControlFrameType reads the first four bytes of what was
    received; on a complete control frame (escape sequence, length, payload)
    it returns 0, which is not ACCEPT, so a bidirectional Writer.init that
    has sent READY and receives such a frame throws "Expected ACCEPT control
    frame, got 0" and sends nothing more, whatever the payload. *)
Theorem init_rejects_framed_accept this s s1 payload rest :
  Writer.bidirectional this = true ->
  Encoder.sendControlFrame READY (Writer.contentTypes this) s = (Ok tt, s1) ->
  events s = DataEvent (control_frame payload) :: rest ->
  Encoder.bufferToControlFrameType (control_frame payload) = Ok 0
  /\ 0 <> value ACCEPT
  /\ Writer.init this s
     = (Throw (ExpectedAccept 0),
        {| written := written s1; write_fails := write_fails s1; events := rest |}).
Proof.
  intros Hbi Hsend Hev.
  split; [apply bufferToControlFrameType_escape |].
  split; [discriminate |].
  pose proof (sendControlFrame_events READY (Writer.contentTypes this) s) as [Hevs _].
  rewrite Hsend in Hevs. cbn [snd] in Hevs. rewrite Hev in Hevs.
  unfold Writer.init. rewrite Hbi. unfold bindA at 1 2. rewrite Hsend.
  unfold bindA at 1. rewrite (Encoder_recv_data _ _ _ _ Hevs).
  unfold bindA, lift. unfold control_frame.
  rewrite bufferToControlFrameType_escape. reflexivity.
Qed.

(** C8, witness: the peer answers READY with a well-framed ACCEPT that
    carries the configured content type. *)
Lemma init_rejects_framed_accept_witness :
  Writer.init {| Writer.bidirectional := true; Writer.contentTypes := Some dns_tap |}
              (idle_socket [DataEvent (control_frame accept_dns_tap)])
  = (Throw (ExpectedAccept 0),
     {| written := [[0; 0; 0; 0]; [0; 0; 0; 31]; ready_dns_tap];
        write_fails := false; events := [] |}).
Proof.
  apply (init_rejects_framed_accept
           {| Writer.bidirectional := true; Writer.contentTypes := Some dns_tap |}
           (idle_socket [DataEvent (control_frame accept_dns_tap)])
           {| written := [[0; 0; 0; 0]; [0; 0; 0; 31]; ready_dns_tap];
              write_fails := false;
              events := [DataEvent (control_frame accept_dns_tap)] |}
           accept_dns_tap []).
  - reflexivity.
  - vm_compute. reflexivity.
  - reflexivity.
Defined.

(** ** SocketWriter.handshake *)

(** C3, the code at the failing input: the writer is configured with
    "application/dns-tap" and the peer answers with ACCEPT carrying the
    same content type.  The frame decodes as ACCEPT, the check of the
    content types passes, and handshake returns: the one chunk written is
    the READY frame, no START is encoded or sent. *)
Theorem handshake_returns_without_START :
  Control.decode accept_dns_tap
  = Ok {| Control.type := value ACCEPT; Control.contentTypes := Some dns_tap |}
  /\ Control.checkContentTypes {| Control.this_contentTypes := Some dns_tap |} dns_tap
     = true
  /\ SocketWriter.handshake (socket_writer (Some dns_tap))
                            (idle_socket [DataEvent accept_dns_tap])
     = (Ok tt,
        {| written := [[0; 0; 0; 31] ++ ready_dns_tap];
           write_fails := false; events := [] |}).
Proof. repeat split; vm_compute; reflexivity. Qed.

(** C9: a frame that decode accepts always has its array of content types,
    so after an ACCEPT the check of the content types always runs: handshake
    throws "Content types not supported" whenever no configured content type
    occurs in the decoded array, in particular when the ACCEPT has no
    content-type field, and always when no content types are configured. *)
Theorem handshake_negotiation_guard this s ready chunk frame rest decoded :
  Control.encode_ (SocketWriter.control this) READY = Ok ready ->
  FrameEncoder.encode ready = Ok chunk ->
  write_fails s = false ->
  events s = DataEvent frame :: rest ->
  Control.decode frame = Ok decoded ->
  Control.type decoded = value ACCEPT ->
  exists tys,
    Control.contentTypes decoded = Some tys
    /\ ((forall configured,
           Control.this_contentTypes (SocketWriter.control this) = Some configured ->
           forall ct, In ct configured -> ~ In ct tys) ->
        SocketWriter.handshake this s
        = (Throw ContentTypesNotSupported,
           {| written := written s ++ [chunk]; write_fails := false; events := rest |}))
    /\ (tys = [] ->
        SocketWriter.handshake this s
        = (Throw ContentTypesNotSupported,
           {| written := written s ++ [chunk]; write_fails := false; events := rest |}))
    /\ (Control.this_contentTypes (SocketWriter.control this) = None ->
        SocketWriter.handshake this s
        = (Throw ContentTypesNotSupported,
           {| written := written s ++ [chunk]; write_fails := false; events := rest |})).
Proof.
  intros Henc Hframe Hw Hev Hdec Hty.
  destruct (decode_contentTypes_array frame decoded Hdec) as [tys Htys].
  exists tys. split; [exact Htys |].
  assert (Hthrow :
    (forall configured,
        Control.this_contentTypes (SocketWriter.control this) = Some configured ->
        forall ct, In ct configured -> ~ In ct tys) ->
    SocketWriter.handshake this s
    = (Throw ContentTypesNotSupported,
       {| written := written s ++ [chunk]; write_fails := false; events := rest |})).
  { intros Hd.
    assert (Hcheck : Control.checkContentTypes (SocketWriter.control this) tys = false).
    { apply not_true_is_false. intros Hc.
      apply checkContentTypes_spec in Hc.
      destruct Hc as [cfg [Hcfg [ct [Hin Hinc]]]]. exact (Hd cfg Hcfg ct Hin Hinc). }
    unfold SocketWriter.handshake, bindA, lift. rewrite Henc.
    rewrite (writeFrame_sends this ready chunk s Hframe Hw).
    erewrite SocketWriter_recv_data by (cbn [events]; exact Hev).
    cbn [written write_fails events].
    unfold Control.decode_. rewrite Hdec, Hty, Z.eqb_refl.
    cbn [negb]. rewrite Htys, Hcheck. reflexivity. }
  split; [exact Hthrow | split].
  - intros ->. apply Hthrow. intros cfg _ ct _ [].
  - intros Hnone. apply Hthrow. intros cfg Hcfg. congruence.
Qed.

(** C9, witness: the writer is configured with "application/dns-tap" and
    the peer answers with ACCEPT carrying "text/plain". *)
Lemma handshake_negotiation_guard_witness :
  SocketWriter.handshake (socket_writer (Some dns_tap))
                         (idle_socket [DataEvent accept_text_plain])
  = (Throw ContentTypesNotSupported,
     {| written := [[0; 0; 0; 31] ++ ready_dns_tap];
        write_fails := false; events := [] |}).
Proof.
  destruct (handshake_negotiation_guard
              (socket_writer (Some dns_tap))
              (idle_socket [DataEvent accept_text_plain])
              ready_dns_tap ([0; 0; 0; 31] ++ ready_dns_tap)
              accept_text_plain []
              {| Control.type := value ACCEPT;
                 Control.contentTypes := Some [Js.str "text/plain"] |})
    as [tys [Htys [Hfail _]]].
  - vm_compute. reflexivity.
  - vm_compute. reflexivity.
  - reflexivity.
  - reflexivity.
  - vm_compute. reflexivity.
  - reflexivity.
  - injection Htys as <-. apply Hfail.
    intros configured [= <-] ct [<- | []] [H | []].
    vm_compute in H. discriminate H.
Defined.

(* ================================================================== *)
(** * Further properties of the code *)

(* ================================================================== *)
(** ** Data frames *)

Lemma subarray_first (buf : Js.Buffer) (n : nat) :
  Js.subarray buf 0 (Z.of_nat n) = firstn n buf.
Proof.
  unfold Js.subarray, Js.clamp_index, Js.length. repeat decide_test.
  rewrite (Z.min_l 0) by lia. cbn [Z.to_nat skipn]. rewrite Z.sub_0_r.
  destruct (Z.le_ge_cases (Z.of_nat n) (Z.of_nat (List.length buf))) as [H | H].
  - rewrite (Z.min_l (Z.of_nat n)) by exact H. rewrite Nat2Z.id. reflexivity.
  - rewrite (Z.min_r (Z.of_nat n)) by lia. rewrite Nat2Z.id.
    rewrite firstn_all. symmetry. apply firstn_all2. lia.
Qed.

Lemma be32_zero n : 0 <= n <= 4294967295 -> be32 n = [0; 0; 0; 0] -> n = 0.
Proof.
  intros Hn Hz. pose proof (readUInt32BE_be32 n [] Hn) as Hr.
  rewrite Hz in Hr. cbn in Hr. congruence.
Qed.

Lemma detectFrameType_CONTROL buffer :
  Decoder.detectFrameType buffer = Resolved CONTROL <->
  exists rest, buffer = 0 :: 0 :: 0 :: 0 :: rest.
Proof.
  unfold Decoder.detectFrameType.
  change 4 with (Z.of_nat 4). rewrite subarray_first.
  destruct (Js.equals (firstn 4 buffer) ESCAPE_SEQUENCE) eqn:He.
  - apply equals_eq in He. split; [intros _ | reflexivity].
    destruct buffer as [| a [| b [| c [| d rest]]]]; try discriminate.
    cbn in He. injection He as -> -> -> ->. eauto.
  - split; [discriminate |]. intros [rest ->].
    cbn in He. discriminate.
Qed.

(** X1: detectFrameType resolves with CONTROL exactly when the buffer
    starts with the four zero bytes of the escape sequence, and with DATA
    otherwise; a buffer shorter than four bytes is classified DATA, it is not
    an error. *)
Theorem detectFrameType_escape_prefix buffer :
  (Decoder.detectFrameType buffer = Resolved CONTROL <->
   exists rest, buffer = ESCAPE_SEQUENCE ++ rest)
  /\ (Decoder.detectFrameType buffer = Resolved DATA <->
      ~ exists rest, buffer = ESCAPE_SEQUENCE ++ rest)
  /\ (Js.length buffer < 4 -> Decoder.detectFrameType buffer = Resolved DATA).
Proof.
  pose proof (detectFrameType_CONTROL buffer) as Hc.
  change (ESCAPE_SEQUENCE ++ ?r) with (0 :: 0 :: 0 :: 0 :: r).
  assert (Hd : Decoder.detectFrameType buffer = Resolved DATA <->
               ~ exists rest, buffer = 0 :: 0 :: 0 :: 0 :: rest).
  { rewrite <- Hc. unfold Decoder.detectFrameType.
    destruct (Js.equals _ _); split; congruence. }
  split; [exact Hc | split; [exact Hd |]].
  intros Hlen. apply Hd. intros [rest ->]. unfold Js.length in Hlen. cbn in Hlen. lia.
Qed.

(** X1, witness: a buffer of three bytes. *)
Lemma detectFrameType_escape_prefix_witness :
  Js.length [0; 0; 1] < 4 /\ Decoder.detectFrameType [0; 0; 1] = Resolved DATA.
Proof.
  split; [reflexivity |].
  apply (proj2 (proj2 (detectFrameType_escape_prefix [0; 0; 1]))). reflexivity.
Defined.

Lemma FrameEncoder_encode_layout buf :
  Js.length buf <= 4294967295 ->
  FrameEncoder.encode buf = Ok (be32 (Js.length buf) ++ buf).
Proof.
  intros H. unfold FrameEncoder.encode.
  rewrite writeUInt32BE_alloc by (unfold Js.length in *; lia).
  cbn [bind]. unfold Js.concat. cbn [List.concat]. rewrite app_nil_r. reflexivity.
Qed.

Lemma FrameEncoder_decode_layout n payload :
  0 <= n <= 4294967295 ->
  FrameEncoder.decode (be32 n ++ payload)
  = Ok {| FrameEncoder.size := n; FrameEncoder.payload := payload |}.
Proof.
  intros Hn. unfold FrameEncoder.decode.
  rewrite readUInt32BE_be32 by exact Hn. cbn [bind].
  pose proof (subarray_from_app (be32 n) payload) as Hs.
  change (Js.length (be32 n)) with 4 in Hs. rewrite Hs. reflexivity.
Qed.

(** X2: for a buffer of at most 2^32-1 bytes, Encoder.encode returns its
    length as a big-endian 32-bit prefix followed by the buffer (4 bytes
    more than the buffer), and Encoder.decode of the result returns that
    length as the size and the buffer as the payload. *)
Theorem FrameEncoder_roundtrip buf :
  Js.length buf <= 4294967295 ->
  exists encoded,
    FrameEncoder.encode buf = Ok encoded
    /\ Js.length encoded = Js.length buf + 4
    /\ Js.readUInt32BE encoded 0 = Ok (Js.length buf)
    /\ Js.subarray_from encoded 4 = buf
    /\ FrameEncoder.decode encoded
       = Ok {| FrameEncoder.size := Js.length buf; FrameEncoder.payload := buf |}.
Proof.
  intros H. exists (be32 (Js.length buf) ++ buf).
  assert (Hr : 0 <= Js.length buf <= 4294967295) by (unfold Js.length in *; lia).
  split; [apply FrameEncoder_encode_layout; exact H |].
  split; [unfold Js.length; rewrite length_app, length_be32; lia |].
  split; [apply readUInt32BE_be32; exact Hr |].
  split; [apply (subarray_from_app (be32 (Js.length buf))) |].
  apply FrameEncoder_decode_layout. exact Hr.
Qed.

(** X2, witness: the buffer of the test suite. *)
Lemma FrameEncoder_roundtrip_witness :
  exists encoded,
    FrameEncoder.encode (Js.from (Js.str "test")) = Ok encoded
    /\ Js.length encoded = Js.length (Js.from (Js.str "test")) + 4
    /\ Js.readUInt32BE encoded 0 = Ok (Js.length (Js.from (Js.str "test")))
    /\ Js.subarray_from encoded 4 = Js.from (Js.str "test")
    /\ FrameEncoder.decode encoded
       = Ok {| FrameEncoder.size := Js.length (Js.from (Js.str "test"));
               FrameEncoder.payload := Js.from (Js.str "test") |}.
Proof. apply FrameEncoder_roundtrip. vm_compute. discriminate. Defined.

(** X3: Encoder.decode throws the RangeError of readUInt32BE exactly when
    the buffer has fewer than 4 bytes; on every longer buffer it succeeds
    with the bytes after the fourth as payload, whatever size the prefix
    declares. *)
Theorem FrameEncoder_decode_short buf :
  (Js.length buf < 4 <-> FrameEncoder.decode buf = Throw ERR_BUFFER_OUT_OF_BOUNDS)
  /\ (4 <= Js.length buf <->
      exists size, FrameEncoder.decode buf
                   = Ok {| FrameEncoder.size := size;
                           FrameEncoder.payload := Js.subarray_from buf 4 |}).
Proof.
  unfold FrameEncoder.decode, Js.readUInt32BE.
  cbn [Z.to_nat skipn orb Z.ltb Z.compare].
  destruct (Z.ltb_spec (Js.length buf) (0 + 4)) as [Hlt | Hge].
  - cbn [bind]. split; split; try lia; try reflexivity.
    intros [size H]. discriminate.
  - destruct buf as [| a [| b [| c [| d rest]]]];
      try (unfold Js.length in Hge; cbn in Hge; lia).
    cbn [bind]. split; split; try lia; try discriminate. eauto.
Qed.

(** X4: the encoding of a data frame is classified CONTROL by
    detectFrameType exactly when the frame is empty: the encoding of the
    empty buffer is the escape sequence itself. *)
Theorem empty_frame_is_escape buf :
  Js.length buf <= 4294967295 ->
  exists encoded,
    FrameEncoder.encode buf = Ok encoded
    /\ (Decoder.detectFrameType encoded = Resolved CONTROL <-> buf = [])
    /\ (buf = [] -> encoded = ESCAPE_SEQUENCE).
Proof.
  intros H. exists (be32 (Js.length buf) ++ buf).
  split; [apply FrameEncoder_encode_layout; exact H |].
  split.
  - rewrite detectFrameType_CONTROL. split.
    + intros [rest Hr].
      assert (Hz : be32 (Js.length buf) = [0; 0; 0; 0])
        by exact (f_equal (firstn 4) Hr).
      apply be32_zero in Hz; [| unfold Js.length in *; lia].
      unfold Js.length in Hz. destruct buf; [reflexivity | cbn in Hz; lia].
    + intros ->. exists []. reflexivity.
  - intros ->. reflexivity.
Qed.

(** X4, witness: the empty buffer. *)
Lemma empty_frame_is_escape_witness :
  exists encoded,
    FrameEncoder.encode [] = Ok encoded
    /\ (Decoder.detectFrameType encoded = Resolved CONTROL <-> @nil Z = [])
    /\ (@nil Z = [] -> encoded = ESCAPE_SEQUENCE).
Proof. apply (empty_frame_is_escape []). vm_compute. discriminate. Defined.

(* ================================================================== *)
(** ** Frames on the socket *)

(** X5: for a frame of at most 2^32-1 bytes, sendFrame writes two chunks,
    the length prefix and the frame, which together are what Encoder.encode
    returns for the frame; it reads no event. *)
Theorem sendFrame_writes_encoded_frame frame s :
  Js.length frame <= 4294967295 ->
  exists lengthBuffer,
    Encoder.sendFrame frame s
    = (Ok tt, {| written := written s ++ [lengthBuffer; frame];
                 write_fails := write_fails s; events := events s |})
    /\ FrameEncoder.encode frame = Ok (lengthBuffer ++ frame).
Proof.
  intros H. exists (be32 (Js.length frame)). split.
  - unfold Encoder.sendFrame, bindA, lift, socket_write.
    rewrite writeUInt32BE_alloc by (unfold Js.length in *; lia).
    cbn [written write_fails events]. rewrite <- app_assoc. reflexivity.
  - apply FrameEncoder_encode_layout. exact H.
Qed.

(** X5, witness: a frame of three bytes. *)
Lemma sendFrame_writes_encoded_frame_witness :
  exists lengthBuffer,
    Encoder.sendFrame [1; 2; 3] (idle_socket [])
    = (Ok tt, {| written := [] ++ [lengthBuffer; [1; 2; 3]];
                 write_fails := false; events := [] |})
    /\ FrameEncoder.encode [1; 2; 3] = Ok (lengthBuffer ++ [1; 2; 3]).
Proof.
  apply (sendFrame_writes_encoded_frame [1; 2; 3] (idle_socket [])).
  vm_compute. discriminate.
Defined.

(** The buffers Control.encode concatenates. *)
Lemma encode_buffers ty cts payload :
  Control.encode ty cts = Ok payload ->
  truthy cts && is_STOP_or_FINISH ty = false
  /\ exists buffers,
       match cts with
       | Some l => push_content_types l [be32 (value ty)]
       | None => Ok [be32 (value ty)]
       end = Ok buffers
       /\ payload = Js.concat buffers.
Proof.
  unfold Control.encode.
  destruct (truthy cts && is_STOP_or_FINISH ty); [discriminate |].
  rewrite writeUInt32BE_alloc by (destruct ty; cbn; lia). cbn [bind].
  destruct (match cts with Some _ => _ | None => _ end) as [buffers | e |];
    cbn [bind]; try discriminate.
  intros [= <-]. split; [reflexivity | eauto].
Qed.

(** X6: when Control.encode returns a payload for a type and content
    types, sendControlFrame writes three chunks, the escape sequence, the
    big-endian length of that payload and the payload; together they form a
    control frame that detectFrameType classifies CONTROL. *)
Theorem sendControlFrame_sends_encoded ty cts payload s :
  Control.encode ty cts = Ok payload ->
  Js.length payload <= 4294967295 ->
  Encoder.sendControlFrame ty cts s
  = (Ok tt,
     {| written := written s ++ [ESCAPE_SEQUENCE; be32 (Js.length payload); payload];
        write_fails := write_fails s; events := events s |})
  /\ Js.concat [ESCAPE_SEQUENCE; be32 (Js.length payload); payload]
     = control_frame payload
  /\ Decoder.detectFrameType (control_frame payload) = Resolved CONTROL.
Proof.
  intros Henc Hlen.
  destruct (encode_buffers ty cts payload Henc) as [Hguard [buffers [Hb ->]]].
  split; [| split].
  - unfold Encoder.sendControlFrame. rewrite Hguard.
    unfold bindA, lift, socket_write.
    rewrite writeUInt32BE_alloc by (destruct ty; cbn; lia).
    rewrite Hb. cbn [written write_fails events].
    rewrite writeUInt32BE_alloc by (unfold Js.length in *; lia).
    rewrite <- !app_assoc. reflexivity.
  - unfold Js.concat at 1, control_frame. cbn [List.concat].
    rewrite app_nil_r. reflexivity.
  - apply detectFrameType_CONTROL. unfold control_frame. cbn [ESCAPE_SEQUENCE app]. eauto.
Qed.

(** X6, witness: READY with "application/dns-tap". *)
Lemma sendControlFrame_sends_encoded_witness :
  Encoder.sendControlFrame READY (Some dns_tap) (idle_socket [])
  = (Ok tt,
     {| written := [] ++ [ESCAPE_SEQUENCE; be32 (Js.length ready_dns_tap); ready_dns_tap];
        write_fails := false; events := [] |})
  /\ Js.concat [ESCAPE_SEQUENCE; be32 (Js.length ready_dns_tap); ready_dns_tap]
     = control_frame ready_dns_tap
  /\ Decoder.detectFrameType (control_frame ready_dns_tap) = Resolved CONTROL.
Proof.
  apply (sendControlFrame_sends_encoded READY (Some dns_tap) ready_dns_tap (idle_socket [])).
  - vm_compute. reflexivity.
  - vm_compute. discriminate.
Defined.

(** push_content_types has a result. *)
Lemma push_content_types_result cts : forall buffers,
  push_content_types cts buffers <> NoResult.
Proof.
  induction cts as [| c cts IH]; intros buffers; cbn [push_content_types]; [discriminate |].
  rewrite writeUInt32BE_alloc by (unfold CONTENT_TYPE; lia). cbn [bind].
  unfold Js.writeUInt32BE at 1.
  repeat match goal with |- context [if ?t then _ else _] => destruct t end;
    cbn [bind]; try discriminate. apply IH.
Qed.

(** X7: when Control.encode throws for a type and content types,
    sendControlFrame throws the same error and has written nothing to the
    socket. *)
Theorem sendControlFrame_throws_as_encode ty cts e s :
  Control.encode ty cts = Throw e ->
  Encoder.sendControlFrame ty cts s = (Throw e, s).
Proof.
  unfold Control.encode, Encoder.sendControlFrame.
  destruct (truthy cts && is_STOP_or_FINISH ty); [intros [= <-]; reflexivity |].
  unfold bindA, lift.
  rewrite writeUInt32BE_alloc by (destruct ty; cbn; lia). cbn [bind].
  destruct (match cts with Some _ => _ | None => _ end) as [buffers | e' |];
    cbn [bind]; [discriminate | intros [= <-]; reflexivity | discriminate].
Qed.

(** X7, witness: FINISH with content types. *)
Lemma sendControlFrame_throws_as_encode_witness :
  Encoder.sendControlFrame FINISH (Some dns_tap) (idle_socket [DataEvent received])
  = (Throw FieldNotAllowed, idle_socket [DataEvent received]).
Proof.
  apply (sendControlFrame_throws_as_encode FINISH (Some dns_tap) FieldNotAllowed).
  reflexivity.
Defined.

(* ================================================================== *)
(** ** Control.encode *)

(** X8: without a content-type array every type, STOP and FINISH
    included, is encoded as the four bytes of its number, and decoding them
    returns the type with an empty array of content types (not an absent
    one). *)
Theorem encode_without_content_types ty :
  Control.encode ty None = Ok (be32 (value ty))
  /\ Js.length (be32 (value ty)) = 4
  /\ Js.readUInt32BE (be32 (value ty)) 0 = Ok (value ty)
  /\ Control.decode (be32 (value ty))
     = Ok {| Control.type := value ty; Control.contentTypes := Some [] |}.
Proof. destruct ty; repeat split. Qed.

(** X9: for a type other than STOP and FINISH, encode returns the four
    bytes of the type followed, for each content type in the order of the
    array, by 00 00 00 01, the big-endian byte length of its UTF-8 encoding
    and the UTF-8 bytes; the length is 4 plus 8 per content type plus the
    UTF-8 bytes.  No limit of 512 bytes is applied when encoding. *)
Theorem encode_wire_layout ty tys :
  ty <> STOP -> ty <> FINISH ->
  payload_size tys <= 4294967295 ->
  Control.encode ty (Some tys)
  = Ok (be32 (value ty)
        ++ flat_map (fun s => be32 CONTENT_TYPE ++ be32 (Js.byteLength s) ++ Js.from s) tys)
  /\ (buffer <- Control.encode ty (Some tys) ;; Ok (Js.length buffer))
     = Ok (4 + payload_size tys).
Proof.
  intros H1 H2 Hsz.
  rewrite encode_layout by (try apply not_STOP_or_FINISH; assumption).
  split; [reflexivity |]. cbn [bind]. f_equal.
  rewrite <- length_fields. unfold Js.length. rewrite length_app, length_be32. lia.
Qed.

(** X9, witness: ACCEPT with the sample content types. *)
Lemma encode_wire_layout_witness :
  Control.encode ACCEPT (Some sample_types)
  = Ok (be32 (value ACCEPT)
        ++ flat_map (fun s => be32 CONTENT_TYPE ++ be32 (Js.byteLength s) ++ Js.from s)
                    sample_types)
  /\ (buffer <- Control.encode ACCEPT (Some sample_types) ;; Ok (Js.length buffer))
     = Ok (4 + payload_size sample_types).
Proof.
  apply encode_wire_layout.
  - discriminate.
  - discriminate.
  - vm_compute. discriminate.
Defined.

(* ================================================================== *)
(** ** Control.decode: what it rejects *)

Lemma length_subarray_from buf n :
  0 <= n <= Js.length buf -> Js.length (Js.subarray_from buf n) = Js.length buf - n.
Proof.
  intros Hn. unfold Js.subarray_from, Js.subarray, Js.clamp_index, Js.length in *.
  repeat decide_test.
  rewrite (Z.min_l n), Z.min_id by lia.
  rewrite length_firstn, length_skipn. lia.
Qed.

Lemma readUInt32BE_head buf :
  4 <= Js.length buf ->
  Js.readUInt32BE (Js.subarray buf 0 4) 0 = Js.readUInt32BE buf 0.
Proof.
  intros H. pose proof (subarray_first buf 4) as Hs.
  change (Z.of_nat 4) with 4 in Hs. rewrite Hs. clear Hs.
  destruct buf as [| a [| b [| c [| d rest]]]];
    try (unfold Js.length in H; cbn in H; lia).
  unfold Js.readUInt32BE, Js.length. cbn [firstn List.length Z.to_nat skipn].
  repeat decide_test. reflexivity.
Qed.

Lemma values_includes_range n : values_includes n = true <-> 1 <= n <= 5.
Proof.
  unfold values_includes, ControlFrameType_values. cbn [existsb orb].
  rewrite !orb_true_iff, !Z.eqb_eq. lia.
Qed.

(** The head of decode, up to the loop. *)
Lemma decode_head buffer ty :
  4 <= Js.length buffer <= 4 + CONTROL_FRAME_LENGTH_MAX ->
  Js.readUInt32BE buffer 0 = Ok (value ty) ->
  Control.decode buffer
  = (contentTypes <-
       (if 0 <? Js.length (Js.subarray_from buffer 4)
        then Control.decode_loop (S (List.length (Js.subarray_from buffer 4)))
                                 (Js.subarray_from buffer 4) 0 []
        else Ok []) ;;
     Ok {| Control.type := value ty; Control.contentTypes := Some contentTypes |}).
Proof.
  unfold CONTROL_FRAME_LENGTH_MAX. intros Hlen Hty. unfold Control.decode.
  rewrite length_subarray_from by lia.
  unfold CONTROL_FRAME_LENGTH_MAX. repeat decide_test.
  rewrite readUInt32BE_head by lia. rewrite Hty. cbn [bind].
  rewrite values_includes_value. reflexivity.
Qed.

(** The loop of decode over well-laid-out fields followed by anything: the
    strings read are the fields' bytes decoded, and the loop goes on after
    them. *)
Lemma decode_loop_fields_then tys : forall bound pre post acc,
  payload_size tys <= CONTROL_FIELD_CONTENT_TYPE_LENGTH_MAX ->
  Control.decode_loop (List.length tys + bound) (pre ++ fields tys ++ post)
                      (Js.length pre) acc
  = Control.decode_loop bound (pre ++ fields tys ++ post)
      (Js.length (pre ++ fields tys))
      (acc ++ map (fun s => Js.toString (Js.from s)) tys).
Proof.
  unfold CONTROL_FIELD_CONTENT_TYPE_LENGTH_MAX.
  induction tys as [| s tys IH]; intros bound pre post acc Hsz.
  - cbn [fields flat_map List.length Nat.add map app]. rewrite !app_nil_r. reflexivity.
  - cbn [payload_size fold_right] in Hsz. fold (payload_size tys) in Hsz.
    pose proof (payload_size_nonneg tys). pose proof (byteLength_nonneg s).
    cbn [fields flat_map List.length Nat.add map]. fold (fields tys).
    rewrite <- (app_assoc (field s)).
    rewrite decode_loop_field by (unfold CONTROL_FIELD_CONTENT_TYPE_LENGTH_MAX; lia).
    rewrite (app_assoc pre (field s)).
    rewrite IH by lia.
    rewrite <- !app_assoc. reflexivity.
Qed.

Lemma decode_loop_done bound buf offset acc :
  Js.length buf <= offset ->
  Control.decode_loop (S bound) buf offset acc = Ok acc.
Proof. intros H. cbn [Control.decode_loop]. decide_test. reflexivity. Qed.

(** A frame: a type, fields, and whatever follows them. *)
Lemma decode_fields_then ty tys post bound :
  payload_size tys + Js.length post <= CONTROL_FRAME_LENGTH_MAX ->
  0 < Js.length post ->
  S (List.length (fields tys ++ post)) = (List.length tys + S bound)%nat ->
  Control.decode (be32 (value ty) ++ fields tys ++ post)
  = (contentTypes <-
       Control.decode_loop (S bound) (fields tys ++ post) (payload_size tys)
                           (map (fun s => Js.toString (Js.from s)) tys) ;;
     Ok {| Control.type := value ty; Control.contentTypes := Some contentTypes |}).
Proof.
  unfold CONTROL_FRAME_LENGTH_MAX. intros Hsz Hpost Hbound.
  pose proof (payload_size_nonneg tys) as Hnn.
  assert (Hl : Js.length (fields tys ++ post) = payload_size tys + Js.length post).
  { rewrite <- length_fields. unfold Js.length. rewrite length_app. lia. }
  assert (Hsub : Js.subarray_from (be32 (value ty) ++ fields tys ++ post) 4
                 = fields tys ++ post)
    by apply (subarray_from_app (be32 (value ty))).
  rewrite (decode_head _ ty).
  - rewrite Hsub, Hl. decide_test. rewrite Hbound.
    pose proof (decode_loop_fields_then tys (S bound) [] post []) as Hloop.
    cbn [app] in Hloop. change (Js.length []) with 0 in Hloop.
    rewrite Hloop by (unfold CONTROL_FIELD_CONTENT_TYPE_LENGTH_MAX; lia).
    rewrite length_fields. reflexivity.
  - unfold CONTROL_FRAME_LENGTH_MAX.
    replace (Js.length (be32 (value ty) ++ fields tys ++ post))
      with (4 + Js.length (fields tys ++ post))
      by (unfold Js.length; rewrite (length_app (be32 _)), length_be32; lia).
    lia.
  - apply readUInt32BE_be32. destruct ty; cbn; lia.
Qed.

Lemma fields_bound tys post :
  0 < Js.length post ->
  exists bound, S (List.length (fields tys ++ post)) = (List.length tys + S bound)%nat.
Proof.
  intros Hpost. pose proof (payload_size_count tys) as Hc.
  rewrite <- length_fields in Hc. unfold Js.length in *.
  exists (List.length (fields tys ++ post) - List.length tys)%nat.
  rewrite length_app. lia.
Qed.

(** The errors of the loop of decode. *)
Lemma readUInt32BE_throws buf offset e :
  Js.readUInt32BE buf offset = Throw e -> e = ERR_BUFFER_OUT_OF_BOUNDS.
Proof.
  unfold Js.readUInt32BE.
  destruct ((offset <? 0) || (Js.length buf <? offset + 4)); [congruence |].
  destruct (skipn (Z.to_nat offset) buf) as [| a [| b [| c [| d l]]]]; congruence.
Qed.

Lemma decode_loop_throws bound : forall buf offset acc e,
  Control.decode_loop bound buf offset acc = Throw e -> loop_error e.
Proof.
  induction bound as [| bound IH]; intros buf offset acc e; cbn [Control.decode_loop];
    [discriminate |].
  destruct (offset <? Js.length buf); [| discriminate].
  destruct (Js.readUInt32BE (Js.subarray buf offset (offset + 4)) 0)
    as [fieldType | e1 |] eqn:Hft; cbn [bind]; [| | discriminate].
  - destruct (Z.eqb_spec fieldType CONTENT_TYPE) as [-> | Hne]; cbn [negb];
      [| intros [= <-]; exact Hne].
    destruct (Js.readUInt32BE (Js.subarray buf (offset + 4) (offset + 4 + 4)) 0)
      as [len | e2 |] eqn:Hlen; cbn [bind]; [| | discriminate].
    + destruct (Z.ltb_spec CONTROL_FIELD_CONTENT_TYPE_LENGTH_MAX len);
        [intros [= <-]; assumption | apply IH].
    + intros [= <-]. apply readUInt32BE_throws in Hlen. subst. exact I.
  - intros [= <-]. apply readUInt32BE_throws in Hft. subst. exact I.
Qed.

Lemma decode_throws buffer e :
  Control.decode buffer = Throw e -> decode_error buffer e.
Proof.
  unfold Control.decode.
  destruct (Z.ltb_spec (Js.length buffer) 4) as [Hlt | Hge];
    [intros [= <-]; exact Hlt |].
  rewrite length_subarray_from by (unfold Js.length in *; lia).
  destruct (Z.ltb_spec CONTROL_FRAME_LENGTH_MAX (Js.length buffer - 4)) as [Hbig | Hfit];
    [intros [= <-]; unfold decode_error, CONTROL_FRAME_LENGTH_MAX in *; lia |].
  assert (Hlen : 4 <= Js.length buffer <= 4 + CONTROL_FRAME_LENGTH_MAX) by lia.
  rewrite readUInt32BE_head by lia.
  destruct (Js.readUInt32BE buffer 0) as [n | e1 |] eqn:Hty; cbn [bind];
    [| intros [= <-]; apply readUInt32BE_throws in Hty; subst; exact Hlen
     | discriminate].
  destruct (values_includes n) eqn:Hinc; cbn [negb].
  - destruct (0 <? Js.length buffer - 4); cbn [bind]; [| discriminate].
    destruct (Control.decode_loop _ _ 0 []) as [cts | e1 |] eqn:Hloop;
      cbn [bind]; try discriminate.
    intros [= <-]. apply decode_loop_throws in Hloop.
    destruct e1; cbn in Hloop |- *; try contradiction; auto.
  - intros [= <-]. cbn. split; [exact Hlen | split; [exact Hty |]].
    rewrite <- values_includes_range. congruence.
Qed.

(** What a successful decode says about the buffer. *)
Lemma decode_returns buffer decoded :
  Control.decode buffer = Ok decoded ->
  4 <= Js.length buffer <= 4 + CONTROL_FRAME_LENGTH_MAX
  /\ Js.readUInt32BE buffer 0 = Ok (Control.type decoded)
  /\ 1 <= Control.type decoded <= 5.
Proof.
  unfold Control.decode.
  destruct (Z.ltb_spec (Js.length buffer) 4) as [Hlt | Hge]; [discriminate |].
  rewrite length_subarray_from by (unfold Js.length in *; lia).
  destruct (Z.ltb_spec CONTROL_FRAME_LENGTH_MAX (Js.length buffer - 4)) as [Hbig | Hfit];
    [discriminate |].
  rewrite readUInt32BE_head by lia.
  destruct (Js.readUInt32BE buffer 0) as [n | e1 |] eqn:Hty; cbn [bind];
    try discriminate.
  destruct (values_includes n) eqn:Hinc; cbn [negb]; [| discriminate].
  apply values_includes_range in Hinc.
  destruct (if 0 <? Js.length buffer - 4 then _ else _) as [cts | e1 |];
    cbn [bind]; try discriminate.
  intros [= <-]. cbn [Control.type]. repeat split; try lia; exact Hty.
Qed.

Lemma decode_length_exceeded_throws buffer :
  4 + CONTROL_FRAME_LENGTH_MAX < Js.length buffer ->
  Control.decode buffer = Throw (LengthExceeded (Js.length buffer)).
Proof.
  unfold CONTROL_FRAME_LENGTH_MAX. intros H. unfold Control.decode. decide_test.
  rewrite length_subarray_from by lia.
  unfold CONTROL_FRAME_LENGTH_MAX. decide_test. reflexivity.
Qed.

Lemma decode_invalid_type_throws buffer n :
  4 <= Js.length buffer <= 4 + CONTROL_FRAME_LENGTH_MAX ->
  Js.readUInt32BE buffer 0 = Ok n ->
  ~ 1 <= n <= 5 ->
  Control.decode buffer = Throw (InvalidType n).
Proof.
  unfold CONTROL_FRAME_LENGTH_MAX. intros Hlen Hty Hn. unfold Control.decode.
  decide_test. rewrite length_subarray_from by lia.
  unfold CONTROL_FRAME_LENGTH_MAX. decide_test.
  rewrite readUInt32BE_head by lia. rewrite Hty. cbn [bind].
  destruct (values_includes n) eqn:Hinc; [| reflexivity].
  apply values_includes_range in Hinc. contradiction.
Qed.

(** X10: decode throws 'Control frame length is less than 4 bytes'
    exactly when the buffer has fewer than 4 bytes. *)
Theorem decode_too_short_iff buffer :
  Js.length buffer < 4 <-> Control.decode buffer = Throw TooShort.
Proof.
  split.
  - intros H. unfold Control.decode. decide_test. reflexivity.
  - intros H. exact (decode_throws buffer TooShort H).
Qed.

(** X11: decode throws the length-exceeded error, which reports the
    length of the whole buffer, exactly when the buffer has more than 516
    bytes (512 after the type), whatever its bytes are: the check comes
    before the check of the type. *)
Theorem decode_length_exceeded_iff buffer :
  4 + CONTROL_FRAME_LENGTH_MAX < Js.length buffer <->
  Control.decode buffer = Throw (LengthExceeded (Js.length buffer)).
Proof.
  split.
  - apply decode_length_exceeded_throws.
  - intros H. exact (proj2 (decode_throws buffer _ H)).
Qed.

(** X12: decode throws 'Invalid control frame type: n' exactly when the
    buffer has between 4 and 516 bytes and its first four bytes read as a
    number n outside 1..5. *)
Theorem decode_invalid_type_iff buffer n :
  (4 <= Js.length buffer <= 4 + CONTROL_FRAME_LENGTH_MAX
   /\ Js.readUInt32BE buffer 0 = Ok n /\ ~ 1 <= n <= 5)
  <-> Control.decode buffer = Throw (InvalidType n).
Proof.
  split.
  - intros [Hlen [Hty Hn]]. apply decode_invalid_type_throws; assumption.
  - intros H. exact (decode_throws buffer _ H).
Qed.

(** X13: the only errors decode throws are the too-short error, the
    length-exceeded error for the length of the buffer, the invalid-type
    error for a number outside 1..5, the invalid-field error for a field type
    other than 1, the field-too-long error for a declared length above 512,
    and the RangeError of readUInt32BE. *)
Theorem decode_error_taxonomy buffer e :
  Control.decode buffer = Throw e ->
  e = TooShort
  \/ e = LengthExceeded (Js.length buffer)
  \/ (exists n, e = InvalidType n /\ ~ 1 <= n <= 5)
  \/ (exists n, e = InvalidField n /\ n <> CONTENT_TYPE)
  \/ (exists n, e = FieldTooLong n /\ CONTROL_FIELD_CONTENT_TYPE_LENGTH_MAX < n)
  \/ e = ERR_BUFFER_OUT_OF_BOUNDS.
Proof.
  intros H. apply decode_throws in H.
  destruct e; cbn in H; try contradiction.
  - left. reflexivity.
  - right. left. destruct H as [-> _]. reflexivity.
  - right. right. left. exists controlFrameType. split; [reflexivity | apply H].
  - right. right. right. left. exists fieldType. split; [reflexivity | apply H].
  - right. right. right. right. left. exists length. split; [reflexivity | apply H].
  - right. right. right. right. right. reflexivity.
Qed.

(** X13, witness: the frame of type 999 of the test suite. *)
Lemma decode_error_taxonomy_witness :
  InvalidType 999 = TooShort
  \/ InvalidType 999 = LengthExceeded (Js.length [0; 0; 3; 231; 0; 0; 0; 0])
  \/ (exists n, InvalidType 999 = InvalidType n /\ ~ 1 <= n <= 5)
  \/ (exists n, InvalidType 999 = InvalidField n /\ n <> CONTENT_TYPE)
  \/ (exists n, InvalidType 999 = FieldTooLong n
                /\ CONTROL_FIELD_CONTENT_TYPE_LENGTH_MAX < n)
  \/ InvalidType 999 = ERR_BUFFER_OUT_OF_BOUNDS.
Proof.
  apply (decode_error_taxonomy [0; 0; 3; 231; 0; 0; 0; 0]).
  vm_compute. reflexivity.
Defined.

(** X14: when decode returns, the buffer has between 4 and 516 bytes,
    the returned type is the number in its first four bytes and is the value
    of one of the five control-frame types, and the content types are an
    array. *)
Theorem decode_success_facts buffer decoded :
  Control.decode buffer = Ok decoded ->
  4 <= Js.length buffer <= 4 + CONTROL_FRAME_LENGTH_MAX
  /\ Js.readUInt32BE buffer 0 = Ok (Control.type decoded)
  /\ (exists ty, Control.type decoded = value ty)
  /\ (exists tys, Control.contentTypes decoded = Some tys).
Proof.
  intros H. destruct (decode_returns buffer decoded H) as [Hlen [Hty Hr]].
  split; [exact Hlen | split; [exact Hty | split]].
  - assert (Hc : Control.type decoded = 1 \/ Control.type decoded = 2
                 \/ Control.type decoded = 3 \/ Control.type decoded = 4
                 \/ Control.type decoded = 5) by lia.
    destruct Hc as [Hc | [Hc | [Hc | [Hc | Hc]]]]; rewrite Hc;
      [exists ACCEPT | exists START | exists STOP | exists READY | exists FINISH];
      reflexivity.
  - exact (decode_contentTypes_array buffer decoded H).
Qed.

(** X14, witness: ACCEPT with "application/dns-tap". *)
Lemma decode_success_facts_witness :
  4 <= Js.length accept_dns_tap <= 4 + CONTROL_FRAME_LENGTH_MAX
  /\ Js.readUInt32BE accept_dns_tap 0 = Ok (value ACCEPT)
  /\ (exists ty, value ACCEPT = value ty)
  /\ (exists tys, Some dns_tap = Some tys).
Proof.
  apply (decode_success_facts accept_dns_tap
           {| Control.type := value ACCEPT; Control.contentTypes := Some dns_tap |}).
  vm_compute. reflexivity.
Defined.

Lemma readUInt32BE_be32_only v :
  0 <= v <= 4294967295 -> Js.readUInt32BE (be32 v) 0 = Ok v.
Proof.
  intros Hv. rewrite <- (app_nil_r (be32 v)). apply readUInt32BE_be32. exact Hv.
Qed.

Lemma subarray_be32 pre v post :
  Js.subarray (pre ++ be32 v ++ post) (Js.length pre) (Js.length pre + 4) = be32 v.
Proof. apply (subarray_middle pre (be32 v) post). Qed.

(** X15: a frame in which well-formed fields are followed by a field
    whose type is not CONTENT_TYPE makes decode throw the invalid-field error
    with that type; the content types read before it are not returned. *)
Theorem decode_rejects_invalid_field ty tys n rest :
  0 <= n <= 4294967295 ->
  n <> CONTENT_TYPE ->
  payload_size tys + 4 + Js.length rest <= CONTROL_FRAME_LENGTH_MAX ->
  Control.decode (be32 (value ty) ++ fields tys ++ be32 n ++ rest)
  = Throw (InvalidField n).
Proof.
  unfold CONTROL_FRAME_LENGTH_MAX. intros Hn Hne Hsz.
  assert (Hrest : 0 <= Js.length rest) by (unfold Js.length; lia).
  assert (Hpost : Js.length (be32 n ++ rest) = 4 + Js.length rest)
    by (unfold Js.length; rewrite length_app, length_be32; lia).
  destruct (fields_bound tys (be32 n ++ rest)) as [bound Hb]; [lia |].
  rewrite (decode_fields_then ty tys (be32 n ++ rest) bound);
    [ | unfold CONTROL_FRAME_LENGTH_MAX; lia | lia | exact Hb ].
  cbn [Control.decode_loop]. rewrite <- length_fields.
  assert (Hl : Js.length (fields tys ++ be32 n ++ rest)
               = Js.length (fields tys) + (4 + Js.length rest))
    by (rewrite <- Hpost; unfold Js.length; rewrite length_app; lia).
  rewrite Hl. decide_test.
  rewrite subarray_be32.
  rewrite readUInt32BE_be32_only by exact Hn.
  cbn [bind]. destruct (Z.eqb_spec n CONTENT_TYPE); [contradiction | reflexivity].
Qed.

(** X15, witness: a field of type 2 after one content type. *)
Lemma decode_rejects_invalid_field_witness :
  Control.decode (be32 (value START) ++ fields dns_tap ++ be32 2 ++ [0; 0; 0; 0])
  = Throw (InvalidField 2).
Proof.
  apply (decode_rejects_invalid_field START dns_tap 2 [0; 0; 0; 0]).
  - lia.
  - discriminate.
  - vm_compute. discriminate.
Defined.

(** X16: a frame in which well-formed fields are followed by a
    CONTENT_TYPE field that declares more than 512 bytes makes decode throw
    the field-too-long error with the declared length, whatever bytes
    follow. *)
Theorem decode_rejects_long_field ty tys n rest :
  CONTROL_FIELD_CONTENT_TYPE_LENGTH_MAX < n <= 4294967295 ->
  payload_size tys + 8 + Js.length rest <= CONTROL_FRAME_LENGTH_MAX ->
  Control.decode (be32 (value ty) ++ fields tys ++ be32 CONTENT_TYPE ++ be32 n ++ rest)
  = Throw (FieldTooLong n).
Proof.
  unfold CONTROL_FRAME_LENGTH_MAX, CONTROL_FIELD_CONTENT_TYPE_LENGTH_MAX. intros Hn Hsz.
  assert (Hrest : 0 <= Js.length rest) by (unfold Js.length; lia).
  assert (Hpost : Js.length (be32 CONTENT_TYPE ++ be32 n ++ rest) = 8 + Js.length rest)
    by (unfold Js.length; rewrite !length_app, !length_be32; lia).
  destruct (fields_bound tys (be32 CONTENT_TYPE ++ be32 n ++ rest)) as [bound Hb]; [lia |].
  rewrite (decode_fields_then ty tys _ bound);
    [ | unfold CONTROL_FRAME_LENGTH_MAX; lia | lia | exact Hb ].
  cbn [Control.decode_loop]. rewrite <- length_fields.
  assert (Hl : Js.length (fields tys ++ be32 CONTENT_TYPE ++ be32 n ++ rest)
               = Js.length (fields tys) + (8 + Js.length rest))
    by (rewrite <- Hpost; unfold Js.length; rewrite length_app; lia).
  rewrite Hl. decide_test.
  rewrite subarray_be32.
  rewrite readUInt32BE_be32_only by (unfold CONTENT_TYPE; lia).
  cbn [bind]. rewrite Z.eqb_refl. cbn [negb].
  pose proof (subarray_be32 (fields tys ++ be32 CONTENT_TYPE) n rest) as Hs.
  rewrite <- app_assoc in Hs.
  replace (Js.length (fields tys ++ be32 CONTENT_TYPE)) with (Js.length (fields tys) + 4) in Hs
    by (unfold Js.length; rewrite length_app, length_be32; lia).
  rewrite Hs.
  rewrite readUInt32BE_be32_only by lia.
  cbn [bind]. unfold CONTROL_FIELD_CONTENT_TYPE_LENGTH_MAX. decide_test. reflexivity.
Qed.

(** X16, witness: a field that declares 513 bytes. *)
Lemma decode_rejects_long_field_witness :
  Control.decode (be32 (value READY) ++ fields dns_tap
                  ++ be32 CONTENT_TYPE ++ be32 513 ++ [97])
  = Throw (FieldTooLong 513).
Proof.
  apply (decode_rejects_long_field READY dns_tap 513 [97]).
  - unfold CONTROL_FIELD_CONTENT_TYPE_LENGTH_MAX. lia.
  - vm_compute. discriminate.
Defined.

Lemma readUInt32BE_short buf :
  Js.length buf < 4 -> Js.readUInt32BE buf 0 = Throw ERR_BUFFER_OUT_OF_BOUNDS.
Proof. intros H. unfold Js.readUInt32BE. decide_test. reflexivity. Qed.

(** X17: a frame that ends inside the 8-byte header of a field (1 to 3
    bytes where a field type should be, or a field type followed by fewer
    than 4 bytes) makes decode throw the RangeError of readUInt32BE; no
    partial result is returned. *)
Theorem decode_rejects_truncated_header ty tys tail :
  Js.length tail < 4 ->
  payload_size tys + 4 + Js.length tail <= CONTROL_FRAME_LENGTH_MAX ->
  (tail <> [] ->
   Control.decode (be32 (value ty) ++ fields tys ++ tail)
   = Throw ERR_BUFFER_OUT_OF_BOUNDS)
  /\ Control.decode (be32 (value ty) ++ fields tys ++ be32 CONTENT_TYPE ++ tail)
     = Throw ERR_BUFFER_OUT_OF_BOUNDS.
Proof.
  unfold CONTROL_FRAME_LENGTH_MAX. intros Htail Hsz.
  assert (Hnn : 0 <= Js.length tail) by (unfold Js.length; lia).
  split.
  - intros Hne.
    assert (Hpos : 0 < Js.length tail)
      by (destruct tail; [contradiction | unfold Js.length; cbn; lia]).
    destruct (fields_bound tys tail) as [bound Hb]; [lia |].
    rewrite (decode_fields_then ty tys tail bound);
      [ | unfold CONTROL_FRAME_LENGTH_MAX; lia | lia | exact Hb ].
    cbn [Control.decode_loop]. rewrite <- length_fields.
    assert (Hl : Js.length (fields tys ++ tail) = Js.length (fields tys) + Js.length tail)
      by (unfold Js.length; rewrite length_app; lia).
    rewrite Hl. decide_test.
    rewrite (subarray_clamped (fields tys) tail 4) by lia.
    rewrite readUInt32BE_short by exact Htail. reflexivity.
  - assert (Hpost : Js.length (be32 CONTENT_TYPE ++ tail) = 4 + Js.length tail)
      by (unfold Js.length; rewrite length_app, length_be32; lia).
    destruct (fields_bound tys (be32 CONTENT_TYPE ++ tail)) as [bound Hb]; [lia |].
    rewrite (decode_fields_then ty tys _ bound);
      [ | unfold CONTROL_FRAME_LENGTH_MAX; lia | lia | exact Hb ].
    cbn [Control.decode_loop]. rewrite <- length_fields.
    assert (Hl : Js.length (fields tys ++ be32 CONTENT_TYPE ++ tail)
                 = Js.length (fields tys) + (4 + Js.length tail))
      by (rewrite <- Hpost; unfold Js.length; rewrite length_app; lia).
    rewrite Hl. decide_test.
    pose proof (subarray_be32 (fields tys) CONTENT_TYPE tail) as Hs1. rewrite Hs1.
    rewrite readUInt32BE_be32_only by (unfold CONTENT_TYPE; lia).
    cbn [bind]. rewrite Z.eqb_refl. cbn [negb].
    pose proof (subarray_clamped (fields tys ++ be32 CONTENT_TYPE) tail 4) as Hs.
    rewrite <- app_assoc in Hs.
    replace (Js.length (fields tys ++ be32 CONTENT_TYPE))
      with (Js.length (fields tys) + 4) in Hs
      by (unfold Js.length; rewrite length_app, length_be32; lia).
    rewrite Hs by lia.
    rewrite readUInt32BE_short by exact Htail. reflexivity.
Qed.

(** X17, witness: three bytes after one content type. *)
Lemma decode_rejects_truncated_header_witness :
  ([0; 0; 0] <> [] ->
   Control.decode (be32 (value START) ++ fields dns_tap ++ [0; 0; 0])
   = Throw ERR_BUFFER_OUT_OF_BOUNDS)
  /\ Control.decode (be32 (value START) ++ fields dns_tap ++ be32 CONTENT_TYPE ++ [0; 0; 0])
     = Throw ERR_BUFFER_OUT_OF_BOUNDS.
Proof.
  apply (decode_rejects_truncated_header START dns_tap [0; 0; 0]).
  - reflexivity.
  - vm_compute. discriminate.
Defined.

(** X18: for ACCEPT, START and READY and every array of strings, well
    formed or not, whose fields take at most 512 bytes, decoding the encoding
    returns the type and each string as Buffer.from(s).toString() gives it
    back, in the same order and with duplicates kept. *)
Theorem decode_encode_any_strings ty tys :
  ty <> STOP -> ty <> FINISH ->
  payload_size tys <= CONTROL_FRAME_LENGTH_MAX ->
  (buffer <- Control.encode ty (Some tys) ;; Control.decode buffer)
  = Ok {| Control.type := value ty;
          Control.contentTypes := Some (map (fun s => Js.toString (Js.from s)) tys) |}.
Proof.
  unfold CONTROL_FRAME_LENGTH_MAX. intros H1 H2 Hsz.
  rewrite encode_layout by (try apply not_STOP_or_FINISH; try assumption; lia).
  cbn [bind]. pose proof (payload_size_nonneg tys) as Hnn.
  assert (Hsub : Js.subarray_from (be32 (value ty) ++ fields tys) 4 = fields tys)
    by apply (subarray_from_app (be32 (value ty))).
  rewrite (decode_head _ ty).
  - rewrite Hsub, length_fields.
    destruct (Z.ltb_spec 0 (payload_size tys)) as [Hpos | Hzero].
    + pose proof (payload_size_count tys) as Hc. rewrite <- length_fields in Hc.
      unfold Js.length in Hc.
      replace (S (List.length (fields tys)))
        with (List.length tys + S (List.length (fields tys) - List.length tys))%nat by lia.
      pose proof (decode_loop_fields_then tys
                    (S (List.length (fields tys) - List.length tys)) [] [] []) as Hloop.
      cbn [app] in Hloop. rewrite app_nil_r in Hloop.
      change (Js.length []) with 0 in Hloop.
      rewrite Hloop by (unfold CONTROL_FIELD_CONTENT_TYPE_LENGTH_MAX; lia).
      rewrite decode_loop_done by lia. reflexivity.
    + pose proof (payload_size_count tys) as Hc.
      destruct tys; [reflexivity | cbn [List.length] in Hc; lia].
  - unfold CONTROL_FRAME_LENGTH_MAX. rewrite <- length_fields in *.
    unfold Js.length in *. rewrite length_app, length_be32. lia.
  - apply readUInt32BE_be32. destruct ty; cbn; lia.
Qed.

(** X18, witness: two strings with unpaired surrogates. *)
Lemma decode_encode_any_strings_witness :
  (buffer <- Control.encode START (Some [[0xD800; 0x41]; [0xDC00]]) ;; Control.decode buffer)
  = Ok {| Control.type := value START;
          Control.contentTypes :=
            Some (map (fun s => Js.toString (Js.from s)) [[0xD800; 0x41]; [0xDC00]]) |}.
Proof.
  apply decode_encode_any_strings.
  - discriminate.
  - discriminate.
  - vm_compute. discriminate.
Defined.

(* ================================================================== *)
(** ** Reads *)

(** The first event that reaches a callback settles the read. *)
Lemma Encoder_recv_head timeout ev rest s :
  Encoder_recv_outcome timeout ev <> Pending ->
  Encoder.recv timeout (with_events s (ev :: rest))
  = (await (Encoder_recv_outcome timeout ev), with_events s rest).
Proof.
  intros Hout. unfold Encoder.recv, await_recv, with_events.
  cbn [events written write_fails].
  destruct ev; cbn in Hout |- *; try (destruct rest; reflexivity).
  unfold Encoder.recv_start.
  destruct (Encoder.truthy_number timeout); [| congruence].
  cbn. destruct rest; reflexivity.
Qed.

(** X19: the first 'data', 'error' or 'close' event, or the timer when a
    non-zero timeout was given, settles Encoder.recv: with the data, the
    socket error, 'Socket closed before receiving data' or 'Timeout while
    waiting for data'; the three socket listeners are then all removed. *)
Theorem Encoder_recv_first_event timeout ev rest s :
  Encoder_recv_outcome timeout ev <> Pending ->
  promise (Encoder.recv_step (Encoder.recv_start timeout) ev)
  = Encoder_recv_outcome timeout ev
  /\ on_data (Encoder.recv_step (Encoder.recv_start timeout) ev) = false
  /\ on_error (Encoder.recv_step (Encoder.recv_start timeout) ev) = false
  /\ on_close (Encoder.recv_step (Encoder.recv_start timeout) ev) = false
  /\ Encoder.recv timeout (with_events s (ev :: rest))
     = (await (Encoder_recv_outcome timeout ev), with_events s rest).
Proof.
  intros Hout.
  split; [| split; [| split; [| split; [| apply Encoder_recv_head; exact Hout]]]];
    destruct ev; cbn in Hout |- *; try reflexivity;
    unfold Encoder.recv_start;
    (destruct (Encoder.truthy_number timeout); [reflexivity | congruence]).
Qed.

(** X19, witness: 'close' comes first. *)
Lemma Encoder_recv_first_event_witness :
  promise (Encoder.recv_step (Encoder.recv_start (Some 5000)) CloseEvent)
  = Encoder_recv_outcome (Some 5000) CloseEvent
  /\ on_data (Encoder.recv_step (Encoder.recv_start (Some 5000)) CloseEvent) = false
  /\ on_error (Encoder.recv_step (Encoder.recv_start (Some 5000)) CloseEvent) = false
  /\ on_close (Encoder.recv_step (Encoder.recv_start (Some 5000)) CloseEvent) = false
  /\ Encoder.recv (Some 5000) (with_events (idle_socket []) (CloseEvent :: [DataEvent received]))
     = (await (Encoder_recv_outcome (Some 5000) CloseEvent),
        with_events (idle_socket []) [DataEvent received]).
Proof.
  apply (Encoder_recv_first_event (Some 5000) CloseEvent [DataEvent received] (idle_socket [])).
  discriminate.
Defined.

(** X20: Encoder.recv called without a timeout or with timeout 0 sets no
    timer: no amount of elapsed time settles the read. *)
Theorem Encoder_recv_no_timeout timeout evs s :
  timeout = None \/ timeout = Some 0 ->
  Forall (fun ev => ev = TimerEvent) evs ->
  timer (Encoder.recv_start timeout) = None
  /\ Encoder.recv timeout (with_events s evs) = (NoResult, with_events s []).
Proof.
  intros Ht Hevs.
  assert (Hstart : Encoder.recv_start timeout
                   = {| on_data := true; on_error := true; on_close := true;
                        timer := None; promise := Pending |})
    by (destruct Ht as [-> | ->]; reflexivity).
  rewrite Hstart. split; [reflexivity |].
  unfold Encoder.recv, await_recv, with_events. cbn [events written write_fails].
  rewrite Hstart.
  induction Hevs as [| ev evs -> _ IH]; [reflexivity |].
  cbn [dispatch_until_settled promise Encoder.recv_step timer]. exact IH.
Qed.

(** X20, witness: timeout 0. *)
Lemma Encoder_recv_no_timeout_witness :
  timer (Encoder.recv_start (Some 0)) = None
  /\ Encoder.recv (Some 0) (with_events (idle_socket []) [TimerEvent; TimerEvent])
     = (NoResult, with_events (idle_socket []) []).
Proof.
  apply (Encoder_recv_no_timeout (Some 0) [TimerEvent; TimerEvent] (idle_socket [])).
  - right. reflexivity.
  - repeat constructor.
Defined.




(** The reads of Decoder keep their two listeners. *)
Lemma Decoder_read_step_listeners st ev :
  on_data st = true -> on_error st = true ->
  on_data (Decoder.read_step st ev) = true /\ on_error (Decoder.read_step st ev) = true.
Proof.
  intros Hd He. destruct ev; cbn [Decoder.read_step]; rewrite ?Hd, ?He; cbn; auto.
Qed.

Lemma Decoder_dispatch_noise noise : forall st evs,
  Forall close_or_timer noise ->
  promise st = Pending ->
  dispatch_until_settled Decoder.read_step st (noise ++ evs)
  = dispatch_until_settled Decoder.read_step st evs.
Proof.
  induction noise as [| ev noise IH]; intros st evs Hn Hp; [reflexivity |].
  inversion Hn as [| ? ? Hev Hn']; subst.
  cbn [app dispatch_until_settled]. rewrite Hp.
  destruct Hev as [-> | ->]; cbn [Decoder.read_step]; apply IH; assumption.
Qed.

(** X22: readControlFrame and readFrame of Decoder are the same read;
    its 'data' and 'error' listeners stay registered whatever events follow,
    it resolves with the first 'data' or is rejected by the first 'error',
    and 'close' events and elapsed time do not settle it. *)
Theorem Decoder_read_listeners_persist noise data rest evs s :
  Forall close_or_timer noise ->
  (on_data (fold_left Decoder.read_step evs Decoder.read_start) = true
   /\ on_error (fold_left Decoder.read_step evs Decoder.read_start) = true)
  /\ Decoder.readControlFrame (with_events s (noise ++ DataEvent data :: rest))
     = (Ok data, with_events s rest)
  /\ Decoder.readControlFrame (with_events s (noise ++ ErrorEvent :: rest))
     = (Throw SocketError, with_events s rest)
  /\ Decoder.readControlFrame (with_events s noise) = (NoResult, with_events s [])
  /\ Decoder.readFrame = Decoder.readControlFrame.
Proof.
  intros Hn. split; [| split; [| split; [| split]]].
  - assert (H : forall st, on_data st = true -> on_error st = true ->
                on_data (fold_left Decoder.read_step evs st) = true
                /\ on_error (fold_left Decoder.read_step evs st) = true).
    { induction evs as [| ev evs IH]; intros st Hd He; [auto |].
      cbn [fold_left]. destruct (Decoder_read_step_listeners st ev Hd He). auto. }
    apply H; reflexivity.
  - unfold Decoder.readControlFrame, await_recv, with_events.
    cbn [events written write_fails].
    rewrite Decoder_dispatch_noise by (try exact Hn; reflexivity).
    cbn. destruct rest; reflexivity.
  - unfold Decoder.readControlFrame, await_recv, with_events.
    cbn [events written write_fails].
    rewrite Decoder_dispatch_noise by (try exact Hn; reflexivity).
    cbn. destruct rest; reflexivity.
  - unfold Decoder.readControlFrame, await_recv, with_events.
    cbn [events written write_fails]. rewrite <- (app_nil_r noise).
    rewrite Decoder_dispatch_noise by (try exact Hn; reflexivity). reflexivity.
  - reflexivity.
Qed.

(** X22, witness: 'close' before 'data' or 'error'. *)
Lemma Decoder_read_listeners_persist_witness :
  (on_data (fold_left Decoder.read_step [DataEvent received; ErrorEvent] Decoder.read_start)
   = true
   /\ on_error (fold_left Decoder.read_step [DataEvent received; ErrorEvent] Decoder.read_start)
      = true)
  /\ Decoder.readControlFrame
       (with_events (idle_socket []) ([CloseEvent] ++ DataEvent received :: []))
     = (Ok received, with_events (idle_socket []) [])
  /\ Decoder.readControlFrame
       (with_events (idle_socket []) ([CloseEvent] ++ ErrorEvent :: []))
     = (Throw SocketError, with_events (idle_socket []) [])
  /\ Decoder.readControlFrame (with_events (idle_socket []) [CloseEvent])
     = (NoResult, with_events (idle_socket []) [])
  /\ Decoder.readFrame = Decoder.readControlFrame.
Proof.
  apply (Decoder_read_listeners_persist [CloseEvent] received []
           [DataEvent received; ErrorEvent] (idle_socket [])).
  constructor; [left; reflexivity | constructor].
Defined.

(* ================================================================== *)
(** ** Writer.init *)

Lemma sendControlFrame_chunks ty cts s :
  ty <> STOP -> ty <> FINISH ->
  payload_size (content_types_of cts) <= 4294967291 ->
  Encoder.sendControlFrame ty cts s
  = (Ok tt, {| written := written s ++ control_chunks ty cts;
               write_fails := write_fails s; events := events s |}).
Proof.
  intros H1 H2 Hsz. apply sendControlFrame_sends; [| exact Hsz].
  rewrite (not_STOP_or_FINISH ty H1 H2). apply andb_false_r.
Qed.

(** init, bidirectional, once READY is sent and an event has come. *)
Lemma init_after_READY this s s1 ev rest :
  Writer.bidirectional this = true ->
  Encoder.sendControlFrame READY (Writer.contentTypes this) s = (Ok tt, s1) ->
  events s = ev :: rest ->
  Encoder_recv_outcome (Some 5000) ev <> Pending ->
  Writer.init this s
  = (_ <~ (resp <~ lift (await (Encoder_recv_outcome (Some 5000) ev)) ;;
           respType <~ lift (Encoder.bufferToControlFrameType resp) ;;
           if negb (respType =? value ACCEPT)
           then throw (ExpectedAccept respType)
           else ret tt) ;;
     Encoder.sendControlFrame START (Writer.contentTypes this))
    (with_events s1 rest).
Proof.
  intros Hbi Hsend Hev Hout.
  pose proof (sendControlFrame_events READY (Writer.contentTypes this) s) as [Hevs _].
  rewrite Hsend in Hevs. cbn [snd] in Hevs. rewrite Hev in Hevs.
  assert (Hs1 : s1 = with_events s1 (ev :: rest))
    by (destruct s1; unfold with_events; cbn in *; congruence).
  unfold Writer.init. rewrite Hbi. unfold bindA at 1 2. rewrite Hsend.
  unfold bindA at 1. rewrite Hs1.
  rewrite (Encoder_recv_head (Some 5000) ev rest s1 Hout). unfold with_events. cbn [written write_fails events].
  unfold bindA, lift. destruct (await _); reflexivity.
Qed.

(** X23: a bidirectional Writer.init that has sent READY and receives
    data whose first four bytes read as a number other than 1 throws
    'Expected ACCEPT control frame, got n' with that number, and START is not
    sent. *)
Theorem init_unexpected_type this s s1 resp n rest :
  Writer.bidirectional this = true ->
  Encoder.sendControlFrame READY (Writer.contentTypes this) s = (Ok tt, s1) ->
  events s = DataEvent resp :: rest ->
  Js.readUInt32BE resp 0 = Ok n ->
  n <> value ACCEPT ->
  Writer.init this s = (Throw (ExpectedAccept n), with_events s1 rest).
Proof.
  intros Hbi Hsend Hev Hty Hn.
  rewrite (init_after_READY this s s1 (DataEvent resp) rest Hbi Hsend Hev)
    by discriminate.
  cbn [Encoder_recv_outcome await]. unfold bindA, lift, Encoder.bufferToControlFrameType.
  rewrite Hty. destruct (Z.eqb_spec n (value ACCEPT)); [contradiction | reflexivity].
Qed.

(** X23, witness: the peer answers with START. *)
Lemma init_unexpected_type_witness :
  Writer.init {| Writer.bidirectional := true; Writer.contentTypes := Some dns_tap |}
              (idle_socket [DataEvent [0; 0; 0; 2]])
  = (Throw (ExpectedAccept 2),
     with_events {| written := [[0; 0; 0; 0]; [0; 0; 0; 31]; ready_dns_tap];
                    write_fails := false; events := [DataEvent [0; 0; 0; 2]] |} []).
Proof.
  apply (init_unexpected_type
           {| Writer.bidirectional := true; Writer.contentTypes := Some dns_tap |}
           (idle_socket [DataEvent [0; 0; 0; 2]])
           {| written := [[0; 0; 0; 0]; [0; 0; 0; 31]; ready_dns_tap];
              write_fails := false; events := [DataEvent [0; 0; 0; 2]] |}
           [0; 0; 0; 2] 2 []).
  - reflexivity.
  - vm_compute. reflexivity.
  - reflexivity.
  - reflexivity.
  - discriminate.
Defined.

(** X24: a bidirectional Writer.init that receives data whose first
    four bytes are 00 00 00 01 succeeds, having written the READY control
    frame and then the START control frame, both with the configured content
    types; the rest of the data received, the content types of the ACCEPT
    included, is not looked at. *)
Theorem init_accepts_by_first_word this s resp rest :
  Writer.bidirectional this = true ->
  payload_size (content_types_of (Writer.contentTypes this)) <= 4294967291 ->
  events s = DataEvent resp :: rest ->
  Js.readUInt32BE resp 0 = Ok (value ACCEPT) ->
  Writer.init this s
  = (Ok tt,
     {| written := written s ++ control_chunks READY (Writer.contentTypes this)
                   ++ control_chunks START (Writer.contentTypes this);
        write_fails := write_fails s; events := rest |}).
Proof.
  intros Hbi Hsz Hev Hty.
  pose proof (sendControlFrame_chunks READY (Writer.contentTypes this) s)
    as Hsend. specialize (Hsend ltac:(discriminate) ltac:(discriminate) Hsz).
  rewrite (init_after_READY this s _ (DataEvent resp) rest Hbi Hsend Hev)
    by discriminate.
  cbn [Encoder_recv_outcome await]. unfold bindA, lift, Encoder.bufferToControlFrameType.
  unfold with_events. cbn [written write_fails events].
  rewrite Hty. rewrite Z.eqb_refl. cbn [negb ret].
  rewrite sendControlFrame_chunks by (try discriminate; exact Hsz).
  cbn [written write_fails events]. rewrite <- app_assoc. reflexivity.
Qed.

(** X24, witness: the peer accepts "text/plain" only. *)
Lemma init_accepts_by_first_word_witness :
  Writer.init {| Writer.bidirectional := true; Writer.contentTypes := Some dns_tap |}
              (idle_socket [DataEvent accept_text_plain])
  = (Ok tt,
     {| written := [] ++ control_chunks READY (Some dns_tap)
                   ++ control_chunks START (Some dns_tap);
        write_fails := false; events := [] |}).
Proof.
  apply (init_accepts_by_first_word
           {| Writer.bidirectional := true; Writer.contentTypes := Some dns_tap |}
           (idle_socket [DataEvent accept_text_plain]) accept_text_plain []).
  - reflexivity.
  - vm_compute. discriminate.
  - reflexivity.
  - reflexivity.
Defined.



(** X26: a Writer that is not bidirectional only sends the START
    control frame with the configured content types: three chunks are
    written and no event is read. *)
Theorem init_unidirectional this s :
  Writer.bidirectional this = false ->
  Writer.init this s = Encoder.sendControlFrame START (Writer.contentTypes this) s
  /\ (payload_size (content_types_of (Writer.contentTypes this)) <= 4294967291 ->
      Writer.init this s
      = (Ok tt,
         {| written := written s ++ control_chunks START (Writer.contentTypes this);
            write_fails := write_fails s; events := events s |})).
Proof.
  intros Hbi.
  assert (H : Writer.init this s
              = Encoder.sendControlFrame START (Writer.contentTypes this) s)
    by (unfold Writer.init; rewrite Hbi; reflexivity).
  split; [exact H |]. intros Hsz. rewrite H.
  apply sendControlFrame_chunks; [discriminate | discriminate | exact Hsz].
Qed.

(** X26, witness: START with "application/dns-tap". *)
Lemma init_unidirectional_witness :
  Writer.init {| Writer.bidirectional := false; Writer.contentTypes := Some dns_tap |}
              (idle_socket [DataEvent received])
  = Encoder.sendControlFrame START (Some dns_tap) (idle_socket [DataEvent received])
  /\ (payload_size (content_types_of (Some dns_tap)) <= 4294967291 ->
      Writer.init {| Writer.bidirectional := false; Writer.contentTypes := Some dns_tap |}
                  (idle_socket [DataEvent received])
      = (Ok tt,
         {| written := [] ++ control_chunks START (Some dns_tap);
            write_fails := false; events := [DataEvent received] |})).
Proof.
  apply (init_unidirectional
           {| Writer.bidirectional := false; Writer.contentTypes := Some dns_tap |}
           (idle_socket [DataEvent received])).
  reflexivity.
Defined.

(* ================================================================== *)
(** ** SocketWriter.handshake *)

(** handshake once READY is written and data has come. *)
Lemma handshake_after_read this s ready chunk frame rest :
  Control.encode_ (SocketWriter.control this) READY = Ok ready ->
  FrameEncoder.encode ready = Ok chunk ->
  write_fails s = false ->
  events s = DataEvent frame :: rest ->
  SocketWriter.handshake this s
  = (handshake_verdict (SocketWriter.control this) (Control.decode frame),
     {| written := written s ++ [chunk]; write_fails := false; events := rest |}).
Proof.
  intros Henc Hframe Hw Hev.
  unfold SocketWriter.handshake, bindA, lift. rewrite Henc.
  rewrite (writeFrame_sends this ready chunk s Hframe Hw).
  erewrite SocketWriter_recv_data by (cbn [events]; exact Hev).
  cbn [written write_fails events].
  unfold Control.decode_, handshake_verdict.
  destruct (Control.decode frame) as [d | e |]; try reflexivity.
  destruct (negb _); [reflexivity |].
  destruct (match Control.contentTypes d with Some _ => _ | None => _ end); reflexivity.
Qed.

(** X27: handshake succeeds, having written the READY frame and
    nothing else, when the data received decodes as ACCEPT and one of the
    configured content types occurs in its content types. *)
Theorem handshake_succeeds_on_common_type
    this s ready chunk frame rest decoded tys configured ct :
  Control.encode_ (SocketWriter.control this) READY = Ok ready ->
  FrameEncoder.encode ready = Ok chunk ->
  write_fails s = false ->
  events s = DataEvent frame :: rest ->
  Control.decode frame = Ok decoded ->
  Control.type decoded = value ACCEPT ->
  Control.contentTypes decoded = Some tys ->
  Control.this_contentTypes (SocketWriter.control this) = Some configured ->
  In ct configured -> In ct tys ->
  SocketWriter.handshake this s
  = (Ok tt, {| written := written s ++ [chunk]; write_fails := false; events := rest |}).
Proof.
  intros Henc Hframe Hw Hev Hdec Hty Htys Hcfg Hin1 Hin2.
  rewrite (handshake_after_read this s ready chunk frame rest Henc Hframe Hw Hev).
  rewrite Hdec. unfold handshake_verdict. rewrite Hty, Z.eqb_refl, Htys. cbn [negb].
  assert (Hc : Control.checkContentTypes (SocketWriter.control this) tys = true)
    by (apply checkContentTypes_spec; eauto).
  rewrite Hc. reflexivity.
Qed.

(** X27, witness: two configured content types, the peer accepts the second. *)
Lemma handshake_succeeds_on_common_type_witness :
  SocketWriter.handshake (socket_writer (Some [Js.str "text/plain"; Js.str "application/dns-tap"]))
                         (idle_socket [DataEvent accept_dns_tap])
  = (Ok tt,
     {| written := [] ++ [[0; 0; 0; 49;  0; 0; 0; 4;  0; 0; 0; 1;  0; 0; 0; 10]
                          ++ Js.from (Js.str "text/plain")
                          ++ [0; 0; 0; 1;  0; 0; 0; 19]
                          ++ Js.from (Js.str "application/dns-tap")];
        write_fails := false; events := [] |}).
Proof.
  apply (handshake_succeeds_on_common_type
           (socket_writer (Some [Js.str "text/plain"; Js.str "application/dns-tap"]))
           (idle_socket [DataEvent accept_dns_tap])
           ([0; 0; 0; 4;  0; 0; 0; 1;  0; 0; 0; 10] ++ Js.from (Js.str "text/plain")
            ++ [0; 0; 0; 1;  0; 0; 0; 19] ++ Js.from (Js.str "application/dns-tap"))
           _ accept_dns_tap []
           {| Control.type := value ACCEPT; Control.contentTypes := Some dns_tap |}
           dns_tap [Js.str "text/plain"; Js.str "application/dns-tap"]
           (Js.str "application/dns-tap")).
  - vm_compute. reflexivity.
  - vm_compute. reflexivity.
  - reflexivity.
  - reflexivity.
  - vm_compute. reflexivity.
  - reflexivity.
  - reflexivity.
  - reflexivity.
  - right. left. reflexivity.
  - left. reflexivity.
Defined.

(** X28: when the data received does not decode, handshake throws the
    error of decode; when it decodes to another type than ACCEPT, handshake
    throws 'Expected ACCEPT control frame, got type' with the decoded type,
    before the content types are looked at. *)
Theorem handshake_rejects this s ready chunk frame rest :
  Control.encode_ (SocketWriter.control this) READY = Ok ready ->
  FrameEncoder.encode ready = Ok chunk ->
  write_fails s = false ->
  events s = DataEvent frame :: rest ->
  (forall e, Control.decode frame = Throw e ->
     SocketWriter.handshake this s
     = (Throw e, {| written := written s ++ [chunk]; write_fails := false;
                    events := rest |}))
  /\ (forall decoded, Control.decode frame = Ok decoded ->
        Control.type decoded <> value ACCEPT ->
        SocketWriter.handshake this s
        = (Throw (ExpectedAccept (Control.type decoded)),
           {| written := written s ++ [chunk]; write_fails := false; events := rest |})).
Proof.
  intros Henc Hframe Hw Hev.
  rewrite (handshake_after_read this s ready chunk frame rest Henc Hframe Hw Hev).
  split.
  - intros e ->. reflexivity.
  - intros decoded -> Hty. unfold handshake_verdict.
    destruct (Z.eqb_spec (Control.type decoded) (value ACCEPT)); [contradiction |].
    reflexivity.
Qed.

(** X28, witness: the peer answers with START. *)
Lemma handshake_rejects_witness :
  SocketWriter.handshake (socket_writer (Some dns_tap))
                         (idle_socket [DataEvent [0; 0; 0; 2]])
  = (Throw (ExpectedAccept (value START)),
     {| written := [] ++ [[0; 0; 0; 31] ++ ready_dns_tap];
        write_fails := false; events := [] |}).
Proof.
  refine (proj2 (handshake_rejects (socket_writer (Some dns_tap))
                   (idle_socket [DataEvent [0; 0; 0; 2]])
                   ready_dns_tap ([0; 0; 0; 31] ++ ready_dns_tap) [0; 0; 0; 2] []
                   _ _ _ _)
                {| Control.type := value START; Control.contentTypes := Some [] |} _ _).
  - vm_compute. reflexivity.
  - vm_compute. reflexivity.
  - reflexivity.
  - reflexivity.
  - vm_compute. reflexivity.
  - discriminate.
Defined.

(** X29: handshake decodes the received bytes as they are: a reply
    framed as a control frame (escape sequence, length, payload) is rejected
    with 'Invalid control frame type: 0' when its payload has at most 508
    bytes, and with the length-exceeded error otherwise. *)
Theorem handshake_rejects_framed_reply this s ready chunk payload rest :
  Control.encode_ (SocketWriter.control this) READY = Ok ready ->
  FrameEncoder.encode ready = Ok chunk ->
  write_fails s = false ->
  events s = DataEvent (control_frame payload) :: rest ->
  (Js.length payload <= 508 ->
   SocketWriter.handshake this s
   = (Throw (InvalidType 0),
      {| written := written s ++ [chunk]; write_fails := false; events := rest |}))
  /\ (508 < Js.length payload ->
      SocketWriter.handshake this s
      = (Throw (LengthExceeded (Js.length payload + 8)),
         {| written := written s ++ [chunk]; write_fails := false; events := rest |})).
Proof.
  intros Henc Hframe Hw Hev.
  rewrite (handshake_after_read this s ready chunk _ rest Henc Hframe Hw Hev).
  assert (Hlen : Js.length (control_frame payload) = Js.length payload + 8).
  { unfold control_frame, Js.length. rewrite !length_app, length_be32. cbn. lia. }
  assert (Hnn : 0 <= Js.length payload) by (unfold Js.length; lia).
  split; intros Hp.
  - rewrite (decode_invalid_type_throws (control_frame payload) 0);
      [reflexivity | unfold CONTROL_FRAME_LENGTH_MAX; lia
       | apply bufferToControlFrameType_escape | lia].
  - rewrite decode_length_exceeded_throws by (unfold CONTROL_FRAME_LENGTH_MAX; lia).
    rewrite Hlen. reflexivity.
Qed.

(** X29, witness: a framed ACCEPT. *)
Lemma handshake_rejects_framed_reply_witness :
  SocketWriter.handshake (socket_writer (Some dns_tap))
                         (idle_socket [DataEvent (control_frame accept_dns_tap)])
  = (Throw (InvalidType 0),
     {| written := [] ++ [[0; 0; 0; 31] ++ ready_dns_tap];
        write_fails := false; events := [] |}).
Proof.
  refine (proj1 (handshake_rejects_framed_reply (socket_writer (Some dns_tap))
                   (idle_socket [DataEvent (control_frame accept_dns_tap)])
                   ready_dns_tap ([0; 0; 0; 31] ++ ready_dns_tap) accept_dns_tap []
                   _ _ _ _) _).
  - vm_compute. reflexivity.
  - vm_compute. reflexivity.
  - reflexivity.
  - reflexivity.
  - vm_compute. discriminate.
Defined.

(** What push_content_types leaves of the buffers it was given. *)
Lemma push_content_types_prefix cts : forall buffers buffers',
  push_content_types cts buffers = Ok buffers' ->
  exists more, buffers' = buffers ++ more.
Proof.
  induction cts as [| c cts IH]; intros buffers buffers'; cbn [push_content_types].
  - intros [= <-]. exists []. symmetry. apply app_nil_r.
  - destruct (Js.writeUInt32BE (Js.alloc 4) CONTENT_TYPE 0); cbn [bind]; try discriminate.
    destruct (Js.writeUInt32BE (Js.alloc 4) (Js.byteLength c) 0); cbn [bind];
      try discriminate.
    intros H. apply IH in H. destruct H as [more ->].
    rewrite <- app_assoc. eauto.
Qed.

Lemma encode_starts_with_type ty cts payload :
  Control.encode ty cts = Ok payload ->
  exists rest, payload = be32 (value ty) ++ rest.
Proof.
  intros H. destruct (encode_buffers ty cts payload H) as [_ [buffers [Hb ->]]].
  destruct cts as [l |].
  - apply push_content_types_prefix in Hb. destruct Hb as [more ->].
    unfold Js.concat. cbn [app List.concat]. eauto.
  - injection Hb as <-. unfold Js.concat. cbn [List.concat]. eauto.
Qed.

Lemma FrameEncoder_encode_inv buf chunk :
  FrameEncoder.encode buf = Ok chunk ->
  Js.length buf <= 4294967295 /\ chunk = be32 (Js.length buf) ++ buf.
Proof.
  intros H.
  assert (Hr : Js.length buf <= 4294967295).
  { revert H. unfold FrameEncoder.encode, Js.writeUInt32BE.
    destruct (Z.ltb_spec 4294967295 (Js.length buf)); [| lia].
    rewrite orb_true_r. discriminate. }
  split; [exact Hr |].
  rewrite FrameEncoder_encode_layout in H by exact Hr. congruence.
Qed.

(** X30: the one chunk handshake writes is the READY payload behind
    its big-endian length, without escape sequence, which detectFrameType
    classifies DATA; when the write reports an error handshake throws it and
    reads nothing. *)
Theorem handshake_sends_READY_as_data_frame this s ready chunk :
  Control.encode_ (SocketWriter.control this) READY = Ok ready ->
  FrameEncoder.encode ready = Ok chunk ->
  written (snd (SocketWriter.handshake this s)) = written s ++ [chunk]
  /\ chunk = be32 (Js.length ready) ++ ready
  /\ Decoder.detectFrameType chunk = Resolved DATA
  /\ (write_fails s = true ->
      SocketWriter.handshake this s
      = (Throw SocketError,
         {| written := written s ++ [chunk]; write_fails := true; events := events s |})).
Proof.
  intros Henc Hframe.
  destruct (FrameEncoder_encode_inv ready chunk Hframe) as [Hr Hchunk].
  assert (Hwritten : written (snd (SocketWriter.handshake this s)) = written s ++ [chunk]).
  { unfold SocketWriter.handshake, bindA, lift. rewrite Henc.
    unfold SocketWriter.writeFrame, bindA, lift, socket_write. rewrite Hframe.
    cbn [written write_fails events].
    destruct (write_fails s); [reflexivity |].
    unfold SocketWriter.recv, await_recv. cbn [written write_fails events].
    destruct (dispatch_until_settled _ _ _) as [st rest].
    destruct (await (promise st)) as [frame | e |]; try reflexivity.
    cbn [written]. destruct (Control.decode_ _ frame) as [d | e |]; try reflexivity.
    destruct (negb _); [reflexivity |].
    destruct (match Control.contentTypes d with Some _ => _ | None => _ end); reflexivity. }
  split; [exact Hwritten | split; [exact Hchunk | split]].
  - destruct (Decoder.detectFrameType chunk) as [| [|] |] eqn:Hd;
      try reflexivity;
      try (unfold Decoder.detectFrameType in Hd; destruct (Js.equals _ _); discriminate).
    exfalso. apply detectFrameType_CONTROL in Hd. destruct Hd as [rest Hrest].
    rewrite Hchunk in Hrest.
    assert (Hz : be32 (Js.length ready) = [0; 0; 0; 0])
      by exact (f_equal (firstn 4) Hrest).
    apply be32_zero in Hz; [| unfold Js.length in *; lia].
    destruct (encode_starts_with_type READY _ ready Henc) as [more ->].
    unfold Js.length in Hz. rewrite length_app, length_be32 in Hz. lia.
  - intros Hw. unfold SocketWriter.handshake, bindA, lift. rewrite Henc.
    unfold SocketWriter.writeFrame, bindA, lift, socket_write. rewrite Hframe.
    cbn [written write_fails events]. rewrite Hw. reflexivity.
Qed.

(** X30, witness: READY with "application/dns-tap". *)
Lemma handshake_sends_READY_as_data_frame_witness :
  written (snd (SocketWriter.handshake (socket_writer (Some dns_tap)) (idle_socket [])))
  = [] ++ [[0; 0; 0; 31] ++ ready_dns_tap]
  /\ [0; 0; 0; 31] ++ ready_dns_tap = be32 (Js.length ready_dns_tap) ++ ready_dns_tap
  /\ Decoder.detectFrameType ([0; 0; 0; 31] ++ ready_dns_tap) = Resolved DATA
  /\ (write_fails (idle_socket []) = true ->
      SocketWriter.handshake (socket_writer (Some dns_tap)) (idle_socket [])
      = (Throw SocketError,
         {| written := [] ++ [[0; 0; 0; 31] ++ ready_dns_tap]; write_fails := true;
            events := [] |})).
Proof.
  apply (handshake_sends_READY_as_data_frame (socket_writer (Some dns_tap))
           (idle_socket []) ready_dns_tap ([0; 0; 0; 31] ++ ready_dns_tap)).
  - vm_compute. reflexivity.
  - vm_compute. reflexivity.
Defined.
